(** * survivor_app.py: the pick-resolution logic of the survivor pool

    A shallow embedding of [src/survivor_app.py]: the score-feed
    normaliser [get_sports_data], the pick eligibility list of the
    Player Portal, the standings classification loop, the reveal gate
    and its setting, the password hashing helpers, [register_user],
    [save_pick_to_sheet], [load_data], the log-in and the admin's list
    of addresses, followed by the properties of these functions.

    Text is modelled by Rocq strings over the ASCII range; on such
    text the functions of module [Py] are Python's.  A password is
    given by the bytes [str.encode] produces for it. *)

From Stdlib Require Import Bool List ZArith Lia Ascii String DecimalString.
From Stdlib Require Import Sorted Permutation.
Import ListNotations.

Open Scope string_scope.
Open Scope list_scope.

(** ** Python built-ins used by the script *)

Module Py.

(** [c.lower()] on one character: [A]..[Z] move down by 32. *)
Definition lower_char (c : ascii) : ascii :=
  let n := nat_of_ascii c in
  if (65 <=? n)%nat && (n <=? 90)%nat then ascii_of_nat (n + 32) else c.

(** [s.lower()] *)
Fixpoint lower (s : string) : string :=
  match s with
  | EmptyString => EmptyString
  | String c s' => String (lower_char c) (lower s')
  end.

(** [sub in s] for two strings: [sub] occurs in [s] at some offset. *)
Fixpoint contains (sub s : string) : bool :=
  String.prefix sub s
  || match s with
     | EmptyString => false
     | String _ s' => contains sub s'
     end.

(** [x in xs] for a list of strings. *)
Definition member (x : string) (xs : list string) : bool :=
  existsb (String.eqb x) xs.

(** The characters [str.strip()] removes: tab, line feed, vertical
    tab, form feed, carriage return, the four separators 28..31 and
    the space. *)
Definition is_space (c : ascii) : bool :=
  let n := nat_of_ascii c in
  ((9 <=? n)%nat && (n <=? 13)%nat) || ((28 <=? n)%nat && (n <=? 32)%nat).

Fixpoint lstrip (s : string) : string :=
  match s with
  | EmptyString => EmptyString
  | String c s' => if is_space c then lstrip s' else s
  end.

Fixpoint rstrip (s : string) : string :=
  match s with
  | EmptyString => EmptyString
  | String c s' =>
      let r := rstrip s' in
      if is_space c && String.eqb r EmptyString then EmptyString
      else String c r
  end.

(** [s.strip()] *)
Definition strip (s : string) : string := rstrip (lstrip s).

(** [str(n)] and the [{n}] of an f-string, for an integer. *)
Definition str_of_int (z : Z) : string :=
  NilZero.string_of_int (Z.to_int z).

Definition digit_of (c : ascii) : option Z :=
  let n := nat_of_ascii c in
  if (48 <=? n)%nat && (n <=? 57)%nat then Some (Z.of_nat (n - 48)) else None.

(** The digits of [int(s)]: one or more decimal digits, where a
    single underscore may sit between two digits.  [acc] is the value
    read so far, [after_digit] tells whether the previous character
    was a digit. *)
Fixpoint int_digits (s : string) (acc : Z) (after_digit : bool) : option Z :=
  match s with
  | EmptyString => if after_digit then Some acc else None
  | String c s' =>
      match digit_of c with
      | Some d => int_digits s' (10 * acc + d)%Z true
      | None =>
          if Ascii.eqb c "_"%char && after_digit then
            match s' with
            | EmptyString => None
            | String c' _ =>
                match digit_of c' with
                | Some _ => int_digits s' acc false
                | None => None
                end
            end
          else None
      end
  end.

(** [int(s)] for a string, base ten: surrounding white space is
    dropped, one sign is allowed; [None] is [ValueError].  (The
    interpreter's bound on the number of digits is not modelled.) *)
Definition int_of_str (s : string) : option Z :=
  match strip s with
  | String "+" ds => int_digits ds 0%Z false
  | String "-" ds => option_map Z.opp (int_digits ds 0%Z false)
  | ds => int_digits ds 0%Z false
  end.

(** The characters with a meaning of their own in a pattern of the
    [re] module. *)
Definition re_special (c : ascii) : bool :=
  existsb (Ascii.eqb c)
    [ "."; "^"; "$"; "*"; "+"; "?"; "{"; "}"; "["; "]"; "\"; "|"; "("; ")" ]%char.

(** A pattern in which every character stands for itself. *)
Fixpoint re_plain (pat : string) : bool :=
  match pat with
  | EmptyString => true
  | String c pat' => negb (re_special c) && re_plain pat'
  end.

End Py.

(** ** pandas: the operations on columns used by the script *)

Module Pd.

(** [col.str.contains(pat, case=False)] on a column of strings: the
    pattern is compiled once as a regular expression with
    [re.IGNORECASE], then searched in every cell.  For a plain pattern
    the search is case-blind containment.  A pattern that uses the
    syntax of [re] is decided by the regular-expression engine, which
    is not embedded here: the result is [None]. *)
Definition str_contains_nocase (pat : string) (col : list string)
  : option (list bool) :=
  if Py.re_plain pat
  then Some (map (fun s => Py.contains (Py.lower pat) (Py.lower s)) col)
  else None.

(** [m1 | m2] on two boolean columns of one frame. *)
Fixpoint mask_or (m1 m2 : list bool) : list bool :=
  match m1, m2 with
  | b1 :: m1', b2 :: m2' => (b1 || b2) :: mask_or m1' m2'
  | _, _ => []
  end.

(** [df[mask]]: the rows whose mask entry is true, in order. *)
Fixpoint boolean_index {A : Type} (df : list A) (mask : list bool) : list A :=
  match df, mask with
  | r :: df', b :: mask' =>
      if b then r :: boolean_index df' mask' else boolean_index df' mask'
  | _, _ => []
  end.

End Pd.

(** ** hashlib: SHA-256 (FIPS 180-4) over 32-bit words held in [Z] *)

Module Sha256.

Local Open Scope Z_scope.

Definition w32 (x : Z) : Z := x mod 2 ^ 32.
Definition add32 (x y : Z) : Z := w32 (x + y).
Definition rotr (n x : Z) : Z :=
  w32 (Z.lor (Z.shiftr x n) (Z.shiftl x (32 - n))).
Definition not32 (x : Z) : Z := w32 (Z.lnot x).

Definition Ch (x y z : Z) : Z := Z.lxor (Z.land x y) (Z.land (not32 x) z).
Definition Maj (x y z : Z) : Z :=
  Z.lxor (Z.lxor (Z.land x y) (Z.land x z)) (Z.land y z).
Definition Sigma0 (x : Z) : Z := Z.lxor (Z.lxor (rotr 2 x) (rotr 13 x)) (rotr 22 x).
Definition Sigma1 (x : Z) : Z := Z.lxor (Z.lxor (rotr 6 x) (rotr 11 x)) (rotr 25 x).
Definition sigma0 (x : Z) : Z := Z.lxor (Z.lxor (rotr 7 x) (rotr 18 x)) (Z.shiftr x 3).
Definition sigma1 (x : Z) : Z := Z.lxor (Z.lxor (rotr 17 x) (rotr 19 x)) (Z.shiftr x 10).

(** The constants are the fractional bits of square and cube roots
    of the first primes, computed here rather than tabulated. *)
Definition is_prime (n : nat) : bool :=
  (2 <=? n)%nat
  && forallb (fun d => negb (Nat.eqb (n mod d) 0)) (seq 2 (n - 2)).

Definition primes64 : list Z :=
  map Z.of_nat (filter is_prime (seq 2 310)).

(** Integer cube root below [2 ^ bits], one bit at a time. *)
Fixpoint icbrt (bits : nat) (n r : Z) : Z :=
  match bits with
  | O => r
  | S b =>
      let r' := r + 2 ^ Z.of_nat b in
      icbrt b n (if r' * r' * r' <=? n then r' else r)
  end.

Definition K : list Z :=
  Eval vm_compute in map (fun p => w32 (icbrt 36 (p * 2 ^ 96) 0)) primes64.

Definition H0 : list Z :=
  Eval vm_compute in map (fun p => w32 (Z.sqrt (p * 2 ^ 64))) (firstn 8 primes64).

Record state : Type :=
  State { ha : Z; hb : Z; hc : Z; hd : Z; he : Z; hf : Z; hg : Z; hh : Z }.

Definition init : state :=
  let h i := nth i H0 0 in
  State (h 0%nat) (h 1%nat) (h 2%nat) (h 3%nat) (h 4%nat) (h 5%nat) (h 6%nat) (h 7%nat).

(** The message bytes of a string. *)
Definition bytes_of (s : string) : list Z :=
  map (fun c => Z.of_nat (nat_of_ascii c)) (list_ascii_of_string s).

(** Big-endian bytes of [x], [n] of them. *)
Fixpoint be_bytes (n : nat) (x : Z) : list Z :=
  match n with
  | O => []
  | S m => (Z.shiftr x (8 * Z.of_nat m)) mod 256 :: be_bytes m x
  end.

(** Padding: the bit 1, zeros up to 56 modulo 64, the bit length on
    eight bytes. *)
Definition pad (msg : list Z) : list Z :=
  let len := Z.of_nat (List.length msg) in
  let zeros := Z.to_nat ((55 - len) mod 64) in
  msg ++ 128 :: repeat 0 zeros ++ be_bytes 8 (8 * len).

Fixpoint words (n : nat) (bs : list Z) : list Z :=
  match n with
  | O => []
  | S m =>
      match bs with
      | b0 :: b1 :: b2 :: b3 :: rest =>
          (b0 * 2 ^ 24 + b1 * 2 ^ 16 + b2 * 2 ^ 8 + b3) :: words m rest
      | _ => []
      end
  end.

(** The message schedule, grown from 16 to 64 words. *)
Fixpoint schedule (more : nat) (w : list Z) : list Z :=
  match more with
  | O => w
  | S m =>
      let t := List.length w in
      let at_ k := nth (t - k) w 0 in
      schedule m
        (w ++ [add32 (add32 (sigma1 (at_ 2%nat)) (at_ 7%nat))
                     (add32 (sigma0 (at_ 15%nat)) (at_ 16%nat))])
  end.

Definition round (s : state) (kw : Z * Z) : state :=
  let (k, w) := kw in
  let t1 := add32 (add32 (add32 (hh s) (Sigma1 (he s))) (Ch (he s) (hf s) (hg s)))
                  (add32 k w) in
  let t2 := add32 (Sigma0 (ha s)) (Maj (ha s) (hb s) (hc s)) in
  State (add32 t1 t2) (ha s) (hb s) (hc s) (add32 (hd s) t1) (he s) (hf s) (hg s).

Definition compress (s : state) (block : list Z) : state :=
  let w := schedule 48 (words 16 block) in
  let r := fold_left round (combine K w) s in
  State (add32 (ha s) (ha r)) (add32 (hb s) (hb r)) (add32 (hc s) (hc r))
        (add32 (hd s) (hd r)) (add32 (he s) (he r)) (add32 (hf s) (hf r))
        (add32 (hg s) (hg r)) (add32 (hh s) (hh r)).

Fixpoint blocks (n : nat) (s : state) (bs : list Z) : state :=
  match n with
  | O => s
  | S m => blocks m (compress s (firstn 64 bs)) (skipn 64 bs)
  end.

Definition digest_state (msg : list Z) : state :=
  let p := pad msg in
  blocks (List.length p / 64) init p.

Definition hex_digit (n : Z) : ascii :=
  ascii_of_nat (Z.to_nat (if n <? 10 then 48 + n else 87 + n)).

(** One word as eight lower-case hexadecimal digits. *)
Definition hex8 (x : Z) : string :=
  string_of_list_ascii
    (map (fun i => hex_digit ((Z.shiftr x (4 * i)) mod 16)) [7; 6; 5; 4; 3; 2; 1; 0]).

(** [hashlib.sha256(data).hexdigest()] *)
Definition hexdigest (msg : list Z) : string :=
  let s := digest_state msg in
  hex8 (ha s) ++ hex8 (hb s) ++ hex8 (hc s) ++ hex8 (hd s)
  ++ hex8 (he s) ++ hex8 (hf s) ++ hex8 (hg s) ++ hex8 (hh s).

End Sha256.

(** ** 2. Security functions (hashing) *)

(** [hashlib.sha256(str.encode(password)).hexdigest()] *)
Definition make_hashes (password : string) : string :=
  Sha256.hexdigest (Sha256.bytes_of password).

Definition check_hashes (password hashed_text : string) : bool :=
  if make_hashes password =? hashed_text then true else false.

(** ** 3. Shared functions *)

(** What reading cell B2 of the Config sheet gives: the call raises,
    or the cell holds a value ([None] for an empty cell). *)
Inductive CellRead : Type :=
| ReadRaises
| CellValue (v : option string).

(** [str(val)] for a cell value. *)
Definition str_of_cell (v : option string) : string :=
  match v with
  | None => "None"
  | Some s => s
  end.

Definition get_reveal_status (b2 : CellRead) : bool :=
  match b2 with
  | ReadRaises => false
  | CellValue val => Py.lower (str_of_cell val) =? "true"
  end.

(** A table read from a sheet: the column names and, per row, the
    cells by column name. *)
Definition Row : Type := list (string * string).

Record DataFrame : Type := { columns : list string; rows : list Row }.

(** [row[c]] and [row.get(c, "")]: the cell of column [c]; the empty
    string when the row has no such column. *)
Fixpoint cell (r : Row) (c : string) : string :=
  match r with
  | [] => ""
  | (k, v) :: r' => if k =? c then v else cell r' c
  end.

(** [df.empty] *)
Definition df_empty (df : DataFrame) : bool :=
  match columns df, rows df with
  | _ :: _, _ :: _ => false
  | _, _ => true
  end.

(** *** Data fetcher *)

(** One row of the frame [get_sports_data] returns. *)
Record GameRecord : Type := {
  TeamA : string;
  TeamB : string;
  Winner : string;
  Status : string;
  Score : string;
  Locked : bool
}.

(** The part of a feed event the loop reads: the description and the
    state of [status.type], and the competitors of the first
    competition with display name and score. *)
Record Competitor : Type := { displayName : string; score : string }.
(* The feed gives the score as a string; the loop converts it with [int]. *)

Record Event : Type := {
  description : string;
  state : string;
  competitors : list Competitor
}.

(** An entry of [data['events']]: of the shape above, or one where a
    key or index the loop reads is missing (the access raises). *)
Inductive RawEvent : Type :=
| BadShape
| Shaped (e : Event).

(** The outcome of [requests.get(url).json()] as far as the function
    looks at it: the request, the decoding or the test for the events
    key raises; or there is a document, with or without events. *)
Inductive Feed : Type :=
| FeedRaises
| FeedData (events : option (list RawEvent)).

Definition bind {A B : Type} (o : option A) (k : A -> option B) : option B :=
  match o with
  | Some a => k a
  | None => None
  end.

Notation "x <- e ;; k" := (bind e (fun x => k))
  (at level 61, e at next level, right associativity).

(** The body of the loop over the events; [None] when it raises. *)
Definition event_record (ev : RawEvent) : option GameRecord :=
  match ev with
  | BadShape => None
  | Shaped e =>
      let short_status := description e in
      let state := state e in
      c0 <- nth_error (competitors e) 0 ;;
      let team_0 := displayName c0 in
      score_0 <- Py.int_of_str (score c0) ;;
      c1 <- nth_error (competitors e) 1 ;;
      let team_1 := displayName c1 in
      score_1 <- Py.int_of_str (score c1) ;;
      let winner :=
        if state =? "post" then
          if (score_0 >? score_1)%Z then team_0
          else if (score_1 >? score_0)%Z then team_1
          else "Tie"
        else "TBD" in
      let is_locked := Py.member state ["in"; "post"] in
      Some {| TeamA := team_0; TeamB := team_1; Winner := winner;
              Status := short_status;
              Score := Py.str_of_int score_0 ++ "-" ++ Py.str_of_int score_1;
              Locked := is_locked |}
  end.

(** The loop: the records in feed order, or [None] once a body raises. *)
Fixpoint collect_games (events : list RawEvent) : option (list GameRecord) :=
  match events with
  | [] => Some []
  | ev :: rest =>
      g <- event_record ev ;;
      gs <- collect_games rest ;;
      Some (g :: gs)
  end.

(** The [try] block: the games list when nothing raised. *)
Definition try_games (feed : Feed) : option (list GameRecord) :=
  match feed with
  | FeedRaises => None
  | FeedData None => Some []
  | FeedData (Some events) => collect_games events
  end.

Definition nfl_teams : list string :=
  [ "Arizona Cardinals"; "Atlanta Falcons"; "Baltimore Ravens"; "Buffalo Bills";
    "Carolina Panthers"; "Chicago Bears"; "Cincinnati Bengals"; "Cleveland Browns";
    "Dallas Cowboys"; "Denver Broncos"; "Detroit Lions"; "Green Bay Packers";
    "Houston Texans"; "Indianapolis Colts"; "Jacksonville Jaguars";
    "Kansas City Chiefs"; "Las Vegas Raiders"; "Los Angeles Chargers";
    "Los Angeles Rams"; "Miami Dolphins"; "Minnesota Vikings";
    "New England Patriots"; "New Orleans Saints"; "New York Giants";
    "New York Jets"; "Philadelphia Eagles"; "Pittsburgh Steelers";
    "San Francisco 49ers"; "Seattle Seahawks"; "Tampa Bay Buccaneers";
    "Tennessee Titans"; "Washington Commanders" ].

Definition ncaa_teams : list string :=
  [ "Duke"; "UNC"; "Kansas"; "Kentucky"; "UConn"; "Gonzaga" ].

(** Fallback / dummy data. *)
Definition dummy_games (pool_type : string) : list GameRecord :=
  let teams := if pool_type =? "NFL Survivor" then nfl_teams else ncaa_teams in
  map (fun t => {| TeamA := t; TeamB := "Bye"; Winner := "TBD";
                   Status := "Scheduled"; Score := "0-0"; Locked := false |})
      teams.

(** [get_sports_data]: the games of the feed when the [try] block ends
    with a non-empty list, the dummy games in every other case.  The
    URL and the week only choose the document the feed answers with. *)
Definition get_sports_data (feed : Feed) (pool_type : string) : list GameRecord :=
  match try_games feed with
  | Some (g :: gs) => g :: gs
  | Some [] => dummy_games pool_type
  | None => dummy_games pool_type
  end.

(** ** 4. User functions *)

(** The spreadsheet: its tabs by title, each a grid of cell rows whose
    first row holds the headers. *)
Definition Worksheet : Type := list (list string).
Definition Spreadsheet : Type := list (string * Worksheet).

(** What a call into the sheet library may raise. *)
Inductive SheetError : Type :=
| WorksheetNotFound (title : string)
| HeaderNotUnique.

(** [str(e)] *)
Definition error_text (e : SheetError) : string :=
  match e with
  | WorksheetNotFound title => title
  | HeaderNotUnique => "the header row in the worksheet is not unique"
  end.

(** [sh.worksheet(title)] *)
Fixpoint worksheet (sh : Spreadsheet) (title : string) : SheetError + Worksheet :=
  match sh with
  | [] => inl (WorksheetNotFound title)
  | (t, ws) :: sh' => if t =? title then inr ws else worksheet sh' title
  end.

Fixpoint distinct (l : list string) : bool :=
  match l with
  | [] => true
  | x :: l' => negb (Py.member x l') && distinct l'
  end.

(** A grid row as a record: header and cell paired, missing cells empty. *)
Fixpoint as_record (header : list string) (cells : list string) : Row :=
  match header with
  | [] => []
  | h :: header' =>
      match cells with
      | [] => (h, "") :: as_record header' []
      | c :: cells' => (h, c) :: as_record header' cells'
      end
  end.

(** [pd.DataFrame(ws.get_all_records())]: the rows below the header as
    records; without such rows the frame has no columns either. *)
Definition get_all_records (ws : Worksheet) : SheetError + DataFrame :=
  match ws with
  | [] => inr {| columns := []; rows := [] |}
  | header :: body =>
      if distinct header then
        match body with
        | [] => inr {| columns := []; rows := [] |}
        | _ => inr {| columns := header; rows := map (as_record header) body |}
        end
      else inl HeaderNotUnique
  end.

(** [ws.append_row(values)] on the tab [title]. *)
Fixpoint append_row (sh : Spreadsheet) (title : string) (values : list string)
  : Spreadsheet :=
  match sh with
  | [] => []
  | (t, ws) :: sh' =>
      if t =? title then (t, ws ++ [values]) :: sh'
      else (t, ws) :: append_row sh' title values
  end.

(** [register_user]: the answer (flag and message) and the spreadsheet
    after the call. *)
Definition register_user (sh : Spreadsheet) (sheet_name name email password : string)
  : (bool * string) * Spreadsheet :=
  match worksheet sh sheet_name with
  | inl e => ((false, error_text e), sh)
  | inr ws =>
      match get_all_records ws with
      | inl e => ((false, error_text e), sh)
      | inr existing_data =>
          let existing_emails :=
            map (fun r => Py.strip (Py.lower (cell r "Email"))) (rows existing_data) in
          if negb (df_empty existing_data)
             && Py.member "Email" (columns existing_data)
             && Py.member (Py.strip (Py.lower email)) existing_emails
          then ((false, "Email already registered!"), sh)
          else
            let secure_hash := make_hashes password in
            ((true, "Success"),
             append_row sh sheet_name [name; email; secure_hash; "Alive"])
      end
  end.

(** ** 5. Player Portal, logged-in view *)

(** [[c for c in df.columns if "Week" in c or "Round" in c]], and
    ["Week 1"] when there is none. *)
Definition pick_cols (df : DataFrame) : list string :=
  match filter (fun c => Py.contains "Week" c || Py.contains "Round" c) (columns df) with
  | [] => ["Week 1"]
  | cs => cs
  end.

(** The picks of the other weeks, empty cells left out. *)
Definition past_picks (user_row : Row) (pick_cols : list string) (selected_week : string)
  : list string :=
  map (cell user_row)
      (filter (fun c => negb (c =? selected_week) && negb (cell user_row c =? ""))
              pick_cols).

(** The loop over [teams_playing]. *)
Fixpoint available_teams (past_picks : list string) (teams_playing : list GameRecord)
  : list string :=
  match teams_playing with
  | [] => []
  | game :: rest =>
      (if negb (Locked game) && negb (Py.member (TeamA game) past_picks)
       then [TeamA game] else [])
      ++ (if negb (Locked game) && negb (Py.member (TeamB game) past_picks)
             && negb (TeamB game =? "Bye")
          then [TeamB game] else [])
      ++ available_teams past_picks rest
  end.

(** [sorted(list(set(xs)))]: each value once, in ascending order. *)
Fixpoint insert_sorted (x : string) (l : list string) : list string :=
  match l with
  | [] => [x]
  | y :: l' =>
      match String.compare x y with
      | Lt => x :: l
      | Eq => l
      | Gt => y :: insert_sorted x l'
      end
  end.

Definition sorted_set (xs : list string) : list string :=
  fold_right insert_sorted [] xs.

(** The teams offered for the pick: [sorted(list(set(available_teams)))]. *)
Definition eligible_teams (past_picks : list string) (teams_playing : list GameRecord)
  : list string :=
  sorted_set (available_teams past_picks teams_playing).

(** The options of the team select box: the empty choice, then the teams. *)
Definition pick_options (past_picks : list string) (teams_playing : list GameRecord)
  : list string :=
  "" :: eligible_teams past_picks teams_playing.

(** The values the standings loop appends to [statuses]. *)
Inductive Outcome : Type := SAFE | ELIMINATED | TIE | PENDING | UNKNOWN.

Definition status_label (o : Outcome) : string :=
  match o with
  | SAFE => "SAFE"
  | ELIMINATED => "ELIMINATED"
  | TIE => "TIE"
  | PENDING => "Pending"
  | UNKNOWN => "Unknown"
  end.

(** The body of the standings loop below the line that reads the pick:
    select the games one of whose team columns contains the pick, then
    judge by the first of them.  [None]: the pick is not a plain
    pattern. *)
Definition classify (pick : string) (df_scores : list GameRecord) : option Outcome :=
  in_a <- Pd.str_contains_nocase pick (map TeamA df_scores) ;;
  in_b <- Pd.str_contains_nocase pick (map TeamB df_scores) ;;
  match Pd.boolean_index df_scores (Pd.mask_or in_a in_b) with
  | [] => Some UNKNOWN
  | game :: _ =>
      if Status game =? "Final" then
        if Py.contains (Py.lower pick) (Py.lower (Winner game)) then Some SAFE
        else if Winner game =? "Tie" then Some TIE
        else Some ELIMINATED
      else Some PENDING
  end.

(** One turn of the loop for a sheet row. *)
Definition row_status (selected_week : string) (df_scores : list GameRecord) (row : Row)
  : option Outcome :=
  let pick := Py.strip (cell row selected_week) in
  classify pick df_scores.

Fixpoint all_some {A : Type} (l : list (option A)) : option (list A) :=
  match l with
  | [] => Some []
  | o :: l' => a <- o ;; r <- all_some l' ;; Some (a :: r)
  end.

(** [df.drop(columns=cs, errors='ignore')] *)
Definition drop_columns (cs : list string) (df : DataFrame) : DataFrame :=
  {| columns := filter (fun c => negb (Py.member c cs)) (columns df);
     rows := map (filter (fun kv : string * string => negb (Py.member (fst kv) cs)))
                 (rows df) |}.

(** [df[name] = values] for a new column. *)
Definition with_column (name : string) (values : list string) (df : DataFrame)
  : DataFrame :=
  {| columns := columns df ++ [name];
     rows := map (fun rv : Row * string => fst rv ++ [(name, snd rv)])
                 (combine (rows df) values) |}.

(** [col.value_counts()]: every distinct value with the number of its
    occurrences, larger counts first; values of equal count are kept
    here in the order of their first occurrence. *)
Fixpoint count_value (v : string) (counts : list (string * nat)) : list (string * nat) :=
  match counts with
  | [] => [(v, 1)]
  | (k, n) :: counts' =>
      if k =? v then (k, S n) :: counts' else (k, n) :: count_value v counts'
  end.

Fixpoint insert_by_count (kv : string * nat) (l : list (string * nat))
  : list (string * nat) :=
  match l with
  | [] => [kv]
  | kv' :: l' =>
      if (snd kv' <? snd kv)%nat then kv :: l else kv' :: insert_by_count kv l'
  end.

Definition value_counts (col : list string) : list (string * nat) :=
  fold_right insert_by_count [] (fold_left (fun acc v => count_value v acc) col []).

(** What the page shows. *)
Inductive Element : Type :=
| Subheader (text : string)
| Warning (text : string)
| Info (text : string)
| Write (text : string)
| CountsTable (counts : list (string * nat))
| Table (df : DataFrame)
| KeyError (key : string).

(** Left column: the breakdown of the alive players' picks.  The run
    stops with [KeyError] when the selected week is no column. *)
Definition breakdown (df : DataFrame) (selected_week : string) : list Element * bool :=
  if Py.member "Status" (columns df) then
    let alive_df :=
      {| columns := columns df;
         rows := filter (fun r => cell r "Status" =? "Alive") (rows df) |} in
    if negb (df_empty alive_df) then
      if Py.member selected_week (columns df) then
        let counts := value_counts (map (fun r => cell r selected_week) (rows alive_df)) in
        ([CountsTable (filter (fun kv => negb (fst kv =? "")) counts)], true)
      else ([KeyError selected_week], false)
    else ([Write "No Alive players."], true)
  else ([], true).

(** Right column: the sheet without the private columns, with the
    calculated status when there are games. *)
Definition standings (df : DataFrame) (selected_week : string)
  (df_scores : list GameRecord) : option (list Element) :=
  let display_df := drop_columns ["Security_Hash"; "Email"; "Login_Code"] df in
  match df_scores with
  | [] => Some [Table display_df]
  | _ =>
      statuses <- all_some (map (row_status selected_week df_scores) (rows df)) ;;
      Some [Table (with_column "Calculated_Status" (map status_label statuses) display_df)]
  end.

(** The part of the page under the visibility setting.  [None]: some
    pick of the sheet is not a plain pattern. *)
Definition picks_board (picks_revealed : bool) (df : DataFrame)
  (selected_week : string) (df_scores : list GameRecord) : option (list Element) :=
  if picks_revealed then
    let (left, goes_on) := breakdown df selected_week in
    let head := Subheader ("📊 Breakdown: " ++ selected_week) :: left in
    if goes_on then
      right <- standings df selected_week df_scores ;;
      Some (head ++ Subheader "🏆 Live Standings" :: right)
    else Some head
  else
    Some [ Warning "🔒 **Picks Hidden**";
           Info "The Admin has hidden the picks board. It will open after the games begin!" ].

(** ** Further functions of the script *)

(** *** Cells of a worksheet *)

(** A cell position as offsets from A1: row, then column. *)
Definition A2 : nat * nat := (1, 0).
Definition B2 : nat * nat := (1, 1).

(** The text of the cell at a position, empty when nothing is there. *)
Definition value_at (ws : Worksheet) (pos : nat * nat) : string :=
  nth (snd pos) (nth (fst pos) ws []) "".

(** [ws.acell(label).value]: [None] for an empty cell. *)
Definition acell (ws : Worksheet) (pos : nat * nat) : option string :=
  let v := value_at ws pos in
  if v =? "" then None else Some v.

(** The list with its [n]-th element set, filled up with [d] when it
    was shorter. *)
Fixpoint set_nth {A : Type} (d : A) (n : nat) (v : A) (l : list A) : list A :=
  match n, l with
  | O, [] => [v]
  | O, _ :: l' => v :: l'
  | S n', [] => d :: set_nth d n' v []
  | S n', x :: l' => x :: set_nth d n' v l'
  end.

(** [ws.update_cell(row, col, value)] and [ws.update([[value]], label)]:
    the cell holds the value as entered, the others are untouched.
    (The size limit of the grid is not modelled.) *)
Definition put_cell (ws : Worksheet) (pos : nat * nat) (value : string) : Worksheet :=
  set_nth [] (fst pos) (set_nth "" (snd pos) value (nth (fst pos) ws [])) ws.

(** A change applied to the tab [sh.worksheet(title)] refers to. *)
Fixpoint update_tab (sh : Spreadsheet) (title : string) (f : Worksheet -> Worksheet)
  : Spreadsheet :=
  match sh with
  | [] => []
  | (t, ws) :: sh' =>
      if t =? title then (t, f ws) :: sh'
      else (t, ws) :: update_tab sh' title f
  end.

Definition check_sheet_exists (sh : Spreadsheet) (sheet_name : string) : bool :=
  match worksheet sh sheet_name with
  | inr _ => true
  | inl _ => false
  end.

(** [ensure_config_sheet]: the Config tab, added with its header and
    the default False when the spreadsheet has none. *)
Definition ensure_config_sheet (sh : Spreadsheet) : Worksheet * Spreadsheet :=
  match worksheet sh "Config" with
  | inr ws => (ws, sh)
  | inl _ =>
      let ws := [["Setting"; "Value"]; ["Picks_Revealed"; "False"]] in
      (ws, sh ++ [("Config", ws)])
  end.

(** [get_reveal_status()] on the spreadsheet: the flag, and the
    spreadsheet after the call (the Config tab may have been added). *)
Definition read_reveal_status (sh : Spreadsheet) : bool * Spreadsheet :=
  let (ws, sh') := ensure_config_sheet sh in
  (get_reveal_status (CellValue (acell ws B2)), sh').

(** [set_reveal_status(new_status)]: B2 gets the status, A2 its label. *)
Definition set_reveal_status (sh : Spreadsheet) (new_status : string) : Spreadsheet :=
  let (_, sh1) := ensure_config_sheet sh in
  let sh2 := update_tab sh1 "Config" (fun ws => put_cell ws B2 new_status) in
  update_tab sh2 "Config" (fun ws => put_cell ws A2 "Picks_Revealed").

(** *** Finding a cell *)

Fixpoint index_of (query : string) (cells : list string) : option nat :=
  match cells with
  | [] => None
  | v :: rest => if v =? query then Some 0 else option_map S (index_of query rest)
  end.

Fixpoint find_rows (query : string) (grid : list (list string)) : option (nat * nat) :=
  match grid with
  | [] => None
  | cells :: rest =>
      match index_of query cells with
      | Some c => Some (0, c)
      | None => option_map (fun rc => (S (fst rc), snd rc)) (find_rows query rest)
      end
  end.

Definition width (ws : Worksheet) : nat :=
  fold_right (fun cells w => Nat.max (List.length cells) w) 0 ws.

(** Every row filled up with empty cells to the width of the sheet. *)
Definition fill_gaps (ws : Worksheet) : Worksheet :=
  map (fun cells => cells ++ repeat "" (width ws - List.length cells)) ws.

(** [ws.find(query)]: the position of the first cell, row by row, whose
    text is the query; [None] when there is none. *)
Definition find (ws : Worksheet) (query : string) : option (nat * nat) :=
  find_rows query (fill_gaps ws).

(** [save_pick_to_sheet]: the flag returned and the spreadsheet after
    the call. *)
Definition save_pick_to_sheet
  (sh : Spreadsheet) (sheet_name player_name week_col team_pick : string)
  : bool * Spreadsheet :=
  match worksheet sh sheet_name with
  | inl _ => (false, sh)
  | inr ws =>
      match find ws player_name, find ws week_col with
      | Some cell_pos, Some week_pos =>
          (true,
           update_tab sh sheet_name
             (fun w => put_cell w (fst cell_pos, snd week_pos) team_pick))
      | _, _ => (false, sh)
      end
  end.

(** *** Reading the sheet for the pages *)

Definition starts_with_digit (s : string) : bool :=
  match s with
  | String c _ => match Py.digit_of c with Some _ => true | None => false end
  | EmptyString => false
  end.

Fixpoint drop_digits (s : string) : string :=
  match s with
  | EmptyString => EmptyString
  | String c s' =>
      match Py.digit_of c with
      | Some _ => drop_digits s'
      | None => s
      end
  end.

Definition drop_sign (s : string) : string :=
  match s with
  | String "+" r => r
  | String "-" r => r
  | _ => s
  end.

(** The strings without underscore that [float] accepts: surrounding
    white space, a sign, then inf, infinity or nan in any letter case,
    or digits with an optional point and an optional exponent, with a
    digit before or after the point. *)
Definition is_float_literal (value : string) : bool :=
  let s := drop_sign (Py.lower (Py.strip value)) in
  if (s =? "inf") || (s =? "infinity") || (s =? "nan") then true
  else
    let after_int := drop_digits s in
    let after_frac :=
      match after_int with
      | String "." r => drop_digits r
      | _ => after_int
      end in
    let has_digit :=
      starts_with_digit s
      || match after_int with
         | String "." r => starts_with_digit r
         | _ => false
         end in
    has_digit
    && match after_frac with
       | EmptyString => true
       | String "e" r =>
           starts_with_digit (drop_sign r) && (drop_digits (drop_sign r) =? "")
       | _ => false
       end.

(** The text [str] gives for a cell after the sheet reader's
    conversion of number-like cells: a cell with an underscore stays, a
    cell [int] accepts becomes that integer, a cell [float] rejects
    stays as it is.  The text of a float is not embedded: [None]. *)
Definition numericise (value : string) : option string :=
  if Py.contains "_" value then Some value
  else
    match Py.int_of_str value with
    | Some z => Some (Py.str_of_int z)
    | None => if is_float_literal value then None else Some value
    end.

Definition numericise_row (r : Row) : option Row :=
  all_some (map (fun kv : string * string =>
                   v <- numericise (snd kv) ;; Some (fst kv, v)) r).

Definition numericise_frame (df : DataFrame) : option DataFrame :=
  rs <- all_some (map numericise_row (rows df)) ;;
  Some {| columns := columns df; rows := rs |}.

(** [load_data(sheet_name)]: the frame of the tab's records, the empty
    frame when reading raises.  [None]: a cell may read as a float. *)
Definition load_data (sh : Spreadsheet) (sheet_name : string) : option DataFrame :=
  match worksheet sh sheet_name with
  | inl _ => Some {| columns := []; rows := [] |}
  | inr ws =>
      match get_all_records ws with
      | inl _ => Some {| columns := []; rows := [] |}
      | inr df => numericise_frame df
      end
  end.

(** *** Log in *)

Inductive LoginResult : Type :=
| LoggedIn (current_user current_email : string)
| IncorrectPassword
| EmailNotFound
| PoolEmpty
| LoginKeyError (key : string)
| LoginIndexError.

(** The Log In button, on the frame [load_data] returned. *)
Definition log_in (df : DataFrame) (email_input password_input : string) : LoginResult :=
  if negb (df_empty df) && Py.member "Email" (columns df) then
    let clean_input := Py.strip (Py.lower email_input) in
    let clean (r : Row) := Py.strip (Py.lower (cell r "Email")) in
    if Py.member clean_input (map clean (rows df)) then
      match filter (fun r => clean r =? clean_input) (rows df) with
      | [] => LoginIndexError
      | user_row :: _ =>
          if Py.member "Security_Hash" (columns df) then
            if check_hashes password_input (cell user_row "Security_Hash") then
              if Py.member "Name" (columns df)
              then LoggedIn (cell user_row "Name") email_input
              else LoginKeyError "Name"
            else IncorrectPassword
          else LoginKeyError "Security_Hash"
      end
    else EmailNotFound
  else PoolEmpty.

(** *** Admin: the list of active players' addresses *)

(** [col.unique()]: the values in order of first appearance. *)
Fixpoint unique (l : list string) : list string :=
  match l with
  | [] => []
  | x :: l' => x :: filter (fun y => negb (y =? x)) (unique l')
  end.

Inductive GroupHelper : Type :=
| NoStatusColumn
| EmailKeyError
| ActiveEmails (emails : list string).

Definition google_group_helper (df : DataFrame) : GroupHelper :=
  if Py.member "Status" (columns df) then
    if Py.member "Email" (columns df) then
      let alive_only := filter (fun r => cell r "Status" =? "Alive") (rows df) in
      ActiveEmails
        (filter (fun e => negb (e =? "") && Py.contains "@" e)
                (unique (map (fun r => cell r "Email") alive_only)))
    else EmailKeyError
  else NoStatusColumn.

(** *** The week asked from the feed *)

Definition is_digit (c : ascii) : bool :=
  match Py.digit_of c with Some _ => true | None => false end.

Fixpoint take_digits (s : string) : string :=
  match s with
  | EmptyString => EmptyString
  | String c s' => if is_digit c then String c (take_digits s') else EmptyString
  end.

(** [re.search(r'\d+', s).group()], [None] when [s] has no digit. *)
Fixpoint first_digits (s : string) : option string :=
  match s with
  | EmptyString => None
  | String c s' =>
      if is_digit c then Some (String c (take_digits s')) else first_digits s'
  end.

(** The URL [get_sports_data] requests. *)
Definition target_url (base_url pool_type : string) (week_num : option string) : string :=
  match week_num with
  | Some w =>
      if (pool_type =? "NFL Survivor") && negb (w =? "")
      then base_url ++ "?week=" ++ w ++ "&seasontype=2"
      else base_url
  | None => base_url
  end.

(** ** The vocabulary of the specification *)

Module Spec.

(** The completion state of a game, from the state token of the feed. *)
Inductive CompletionState : Type := scheduled | in_progress | final.

Definition completionState (state_token : string) : CompletionState :=
  if state_token =? "in" then in_progress
  else if state_token =? "post" then final
  else scheduled.

(** [sub] is a substring of [s]. *)
Definition substring (sub s : string) : Prop :=
  exists before after : string, s = (before ++ sub ++ after)%string.

(** [sub] is a substring of [s] when letter case is ignored. *)
Definition ci_substring (sub s : string) : Prop :=
  substring (Py.lower sub) (Py.lower s).

(** The record has the pick in the name of one of its two teams. *)
Definition mentions (pick : string) (g : GameRecord) : Prop :=
  ci_substring pick (TeamA g) \/ ci_substring pick (TeamB g).

(** [g] is the first record of [gs] that mentions the pick. *)
Definition first_match (pick : string) (gs : list GameRecord) (g : GameRecord) : Prop :=
  exists before after,
    gs = before ++ g :: after
    /\ (forall h, In h before -> ~ mentions pick h)
    /\ mentions pick g.

(** The team is one of the two competitors of the record. *)
Definition plays (t : string) (g : GameRecord) : Prop :=
  TeamA g = t \/ TeamB g = t.

(** Team names are distinct within the slate: a team plays in one
    record only. *)
Definition one_game_per_team (gs : list GameRecord) : Prop :=
  forall (t : string) (g h : GameRecord),
    In g gs -> In h gs -> plays t g -> plays t h -> g = h.

(** The Pick Outcome Classifier in the words of the specification,
    on records that carry their completion state: the first record
    one of whose teams contains the pick decides. *)
Fixpoint classifier (pick : string) (slate : list (GameRecord * CompletionState))
  : Outcome :=
  match slate with
  | [] => UNKNOWN
  | (g, st) :: rest =>
      if Py.contains (Py.lower pick) (Py.lower (TeamA g))
         || Py.contains (Py.lower pick) (Py.lower (TeamB g))
      then
        match st with
        | final =>
            if Py.contains (Py.lower pick) (Py.lower (Winner g)) then SAFE
            else if Winner g =? "Tie" then TIE
            else ELIMINATED
        | _ => PENDING
        end
      else classifier pick rest
  end.

(** The records of a feed that normalises without error, each with
    the completion state of its event. *)
Fixpoint slate (events : list Event) : list (GameRecord * CompletionState) :=
  match events with
  | [] => []
  | e :: rest =>
      match event_record (Shaped e) with
      | Some g => (g, completionState (state e)) :: slate rest
      | None => slate rest
      end
  end.

(** An event the loop can read: of the expected shape, with at least
    two competitors whose first two scores are integers. *)
Definition well_formed (ev : RawEvent) : Prop :=
  exists e c0 c1 more s0 s1,
    ev = Shaped e
    /\ competitors e = c0 :: c1 :: more
    /\ Py.int_of_str (score c0) = Some s0
    /\ Py.int_of_str (score c1) = Some s1.

(** The three failures of the feed. *)
Definition unreachable (feed : Feed) : Prop := feed = FeedRaises.

Definition malformed (feed : Feed) : Prop :=
  exists events ev,
    feed = FeedData (Some events) /\ In ev events /\ ~ well_formed ev.

Definition zero_events (feed : Feed) : Prop :=
  feed = FeedData None \/ feed = FeedData (Some []).

(** A record of a slate that has not started: no winner yet, open for
    picks. *)
Definition scheduled_unlocked (g : GameRecord) : Prop :=
  Winner g = "TBD" /\ Status g = "Scheduled" /\ Locked g = false.

End Spec.

(** ** Decision procedures and sample data used by the statements *)

(** The test the standings loop applies to one record and a pick. *)
Definition mentionsb (pick : string) (g : GameRecord) : bool :=
  Py.contains (Py.lower pick) (Py.lower (TeamA g))
  || Py.contains (Py.lower pick) (Py.lower (TeamB g)).

(** The verdict of the loop on the record it selected. *)
Definition judge (pick : string) (game : GameRecord) : Outcome :=
  if Status game =? "Final" then
    if Py.contains (Py.lower pick) (Py.lower (Winner game)) then SAFE
    else if Winner game =? "Tie" then TIE
    else ELIMINATED
  else PENDING.

Definition two_sided (d st a sa b sb : string) : Event :=
  {| description := d; state := st;
     competitors := [ {| displayName := a; score := sa |};
                      {| displayName := b; score := sb |} ] |}.

Definition game (a b w st sc : string) (l : bool) : GameRecord :=
  {| TeamA := a; TeamB := b; Winner := w; Status := st; Score := sc; Locked := l |}.

Definition eagles_giants_final : GameRecord :=
  game "Eagles" "Giants" "Eagles" "Final" "24-17" true.

Definition jets_bills_final : GameRecord :=
  game "Jets" "Bills" "Tie" "Final" "10-10" true.

(** A sheet row of a player without a pick for week 1. *)
Definition no_pick_row : Row :=
  [("Name", "Bob"); ("Email", "bob@example.org"); ("Security_Hash", "-");
   ("Status", "Alive"); ("Week 1", "")].

(** A game that is over for the feed (state post) under the
    description Canceled. *)
Definition canceled_event : Event :=
  two_sided "Canceled" "post" "Eagles" "0" "Giants" "0".

(** The two messages shown in place of the board. *)
Definition hidden_marker : list Element :=
  [ Warning "🔒 **Picks Hidden**";
    Info "The Admin has hidden the picks board. It will open after the games begin!" ].

(** The header row the admin page writes into a new NFL tab. *)
Definition nfl_header : list string :=
  ["Name"; "Email"; "Security_Hash"; "Status"]
  ++ map (fun i => ("Week " ++ Py.str_of_int (Z.of_nat i))%string) (seq 1 18).

(** ** Predicates used by the further properties *)

(** Every character of the string passes the test. *)
Fixpoint string_forall (p : ascii -> bool) (s : string) : bool :=
  match s with
  | EmptyString => true
  | String c s' => p c && string_forall p s'
  end.

(** A digit or one of the letters a to f. *)
Definition is_lower_hex (c : ascii) : bool :=
  let n := nat_of_ascii c in
  ((48 <=? n)%nat && (n <=? 57)%nat) || ((97 <=? n)%nat && (n <=? 102)%nat).

(** The order of [sorted] on strings. *)
Definition str_lt (a b : string) : Prop := String.compare a b = Lt.

(** The count recorded for a value in a table of counts, 0 when the
    value has no entry. *)
Fixpoint tally (counts : list (string * nat)) (v : string) : nat :=
  match counts with
  | [] => 0
  | (k, n) :: counts' => if k =? v then n else tally counts' v
  end.

(** The picks of the Alive rows for a week, the column the breakdown
    counts. *)
Definition alive_picks (df : DataFrame) (week : string) : list string :=
  map (fun r => cell r week)
      (filter (fun r => cell r "Status" =? "Alive") (rows df)).

(** Larger counts first. *)
Definition count_ge (a b : string * nat) : Prop := snd b <= snd a.

(** A sheet with two players, one of them without a pick. *)
Definition sample_sheet : DataFrame :=
  {| columns := ["Name"; "Email"; "Security_Hash"; "Status"; "Week 1"];
     rows := [ [("Name", "Ann"); ("Email", "ann@example.org");
                ("Security_Hash", "-"); ("Status", "Alive"); ("Week 1", "Eagles")];
               no_pick_row ] |}.

(** Position [p] comes before [q] when the sheet is read row by row. *)
Definition row_major_lt (p q : nat * nat) : Prop :=
  fst p < fst q \/ (fst p = fst q /\ snd p < snd q).

(** [pos] is the first cell of the sheet, row by row, whose text is
    [query]. *)
Definition first_cell (ws : Worksheet) (query : string) (pos : nat * nat) : Prop :=
  fst pos < List.length ws
  /\ snd pos < width ws
  /\ value_at ws pos = query
  /\ forall p, snd p < width ws -> row_major_lt p pos -> value_at ws p <> query.


(** A cell the sheet reader leaves as it is. *)
Definition kept_as_text (value : string) : Prop := numericise value = Some value.

(** The e-mail address as the script compares it. *)
Definition clean_email (s : string) : string := Py.strip (Py.lower s).

(** * Properties *)

(** ** Strings *)

Lemma prefix_app (s1 s2 : string) :
  String.prefix s1 s2 = true <-> exists t : string, s2 = (s1 ++ t)%string.
Proof.
  revert s2; induction s1 as [|c s1 IH]; intros s2.
  - destruct s2; simpl; split; intros _; eauto.
  - destruct s2 as [|d s2]; simpl.
    + split; [discriminate | intros [t Ht]; discriminate].
    + destruct (ascii_dec c d) as [->|Hne].
      * rewrite IH. split; intros [t Ht]; exists t.
        -- now rewrite Ht.
        -- now inversion Ht.
      * split; [discriminate | intros [t Ht]; congruence].
Qed.

Lemma contains_substring (sub s : string) :
  Py.contains sub s = true <-> Spec.substring sub s.
Proof.
  unfold Spec.substring.
  induction s as [|c s IH]; cbn [Py.contains].
  - rewrite orb_false_r, prefix_app. split.
    + intros [t Ht]. exists ""%string, t. exact Ht.
    + intros [b [a Ha]]. destruct b; [now exists a | discriminate].
  - rewrite orb_true_iff, prefix_app, IH. split.
    + intros [[t Ht]|[b [a Ha]]].
      * exists ""%string, t. exact Ht.
      * exists (String c b), a. simpl. now rewrite Ha.
    + intros [b [a Ha]]. destruct b as [|c' b].
      * left. now exists a.
      * right. exists b, a. simpl in Ha. now inversion Ha.
Qed.

Lemma contains_empty (s : string) : Py.contains "" s = true.
Proof. destruct s; reflexivity. Qed.

Lemma member_In (x : string) (xs : list string) :
  Py.member x xs = true <-> In x xs.
Proof.
  unfold Py.member. rewrite existsb_exists. split.
  - intros [y [Hy He]]. apply String.eqb_eq in He. now subst.
  - intros H. exists x. split; [assumption | apply String.eqb_refl].
Qed.

Lemma member_false (x : string) (xs : list string) :
  Py.member x xs = false <-> ~ In x xs.
Proof.
  rewrite <- member_In. destruct (Py.member x xs); split; congruence.
Qed.

(** ** The standings loop *)

Lemma mentionsb_mentions (pick : string) (g : GameRecord) :
  mentionsb pick g = true <-> Spec.mentions pick g.
Proof.
  unfold mentionsb, Spec.mentions, Spec.ci_substring.
  now rewrite orb_true_iff, !contains_substring.
Qed.

Lemma boolean_index_rows (f1 f2 : string -> bool) (gs : list GameRecord) :
  Pd.boolean_index gs (Pd.mask_or (map f1 (map TeamA gs)) (map f2 (map TeamB gs)))
  = filter (fun g => f1 (TeamA g) || f2 (TeamB g)) gs.
Proof.
  induction gs as [|g gs IH]; simpl; [reflexivity|].
  rewrite IH. reflexivity.
Qed.

(** For a plain pick the loop judges by the first record that passes
    the test, and answers Unknown when none does. *)
Lemma classify_filter (pick : string) (gs : list GameRecord) :
  Py.re_plain pick = true ->
  classify pick gs =
  Some match filter (mentionsb pick) gs with
       | [] => UNKNOWN
       | game :: _ => judge pick game
       end.
Proof.
  intros Hp. unfold classify, Pd.str_contains_nocase. rewrite Hp. simpl bind.
  rewrite boolean_index_rows.
  change (fun g => _ || _) with (mentionsb pick).
  destruct (filter (mentionsb pick) gs) as [|g0 rest]; [reflexivity|].
  unfold judge.
  destruct (Status g0 =? "Final"); [|reflexivity].
  destruct (Py.contains _ _); [reflexivity|].
  destruct (Winner g0 =? "Tie"); reflexivity.
Qed.

Lemma filter_none {A : Type} (p : A -> bool) (l : list A) :
  (forall x, In x l -> p x = false) -> filter p l = [].
Proof.
  induction l as [|x l IH]; simpl; intros H; [reflexivity|].
  rewrite (H x (or_introl eq_refl)). apply IH. intros y Hy. apply H. now right.
Qed.

Lemma filter_first {A : Type} (p : A -> bool) (before after : list A) (x : A) :
  (forall y, In y before -> p y = false) -> p x = true ->
  filter p (before ++ x :: after) = x :: filter p after.
Proof.
  intros Hb Hx. rewrite filter_app, (filter_none p before Hb). simpl. now rewrite Hx.
Qed.

Lemma classify_empty_pick (g : GameRecord) (gs : list GameRecord) :
  classify "" (g :: gs) = Some (if Status g =? "Final" then SAFE else PENDING).
Proof.
  rewrite classify_filter by reflexivity. simpl filter.
  unfold mentionsb. simpl Py.lower. rewrite contains_empty. simpl.
  unfold judge. simpl Py.lower. now rewrite contains_empty.
Qed.

(** C1, as the code has it: the empty pick passes the containment test
    of every record, so the first game of the slate decides; when that
    game is final the player without a pick is shown SAFE, where the
    specification demands UNKNOWN. *)
Theorem empty_pick_shown_safe :
  classify "" [eagles_giants_final; jets_bills_final] = Some SAFE
  /\ row_status "Week 1" [eagles_giants_final; jets_bills_final] no_pick_row = Some SAFE
  /\ classify "" [eagles_giants_final; jets_bills_final] <> Some UNKNOWN.
Proof.
  repeat split; try reflexivity. discriminate.
Qed.

(** C2, the claim at a game the feed reports over (state post) under a
    description other than Final: by the specification the pick is
    judged (here TIE), the loop answers Pending. *)
Lemma classify_ignores_state_token :
  get_sports_data (FeedData (Some [Shaped canceled_event])) "NFL Survivor"
  = [game "Eagles" "Giants" "Tie" "Canceled" "0-0" true]
  /\ Spec.slate [canceled_event]
     = [(game "Eagles" "Giants" "Tie" "Canceled" "0-0" true, Spec.final)]
  /\ Spec.classifier "Eagles" (Spec.slate [canceled_event]) = TIE
  /\ classify "Eagles"
       (get_sports_data (FeedData (Some [Shaped canceled_event])) "NFL Survivor")
     = Some PENDING.
Proof. repeat split. Qed.

(** C2, amended: for a pick free of regular-expression syntax, the
    loop answers Unknown when no record mentions the pick; otherwise
    the first record that mentions it decides: Pending unless its
    status text is Final, and for status Final SAFE when the winner
    contains the pick, else TIE when the winner is Tie, else
    ELIMINATED. *)
Theorem classify_by_first_match (pick : string) (gs : list GameRecord) :
  Py.re_plain pick = true ->
  ((forall g, In g gs -> ~ Spec.mentions pick g) -> classify pick gs = Some UNKNOWN)
  /\ (forall g, Spec.first_match pick gs g ->
        (Status g <> "Final" -> classify pick gs = Some PENDING)
        /\ (Status g = "Final" -> Spec.ci_substring pick (Winner g) ->
            classify pick gs = Some SAFE)
        /\ (Status g = "Final" -> ~ Spec.ci_substring pick (Winner g) ->
            Winner g = "Tie" -> classify pick gs = Some TIE)
        /\ (Status g = "Final" -> ~ Spec.ci_substring pick (Winner g) ->
            Winner g <> "Tie" -> classify pick gs = Some ELIMINATED)).
Proof.
  intros Hp. rewrite (classify_filter pick gs Hp). split.
  - intros Hno. rewrite filter_none; [reflexivity|].
    intros g Hg. specialize (Hno g Hg). rewrite <- mentionsb_mentions in Hno.
    now destruct (mentionsb pick g).
  - intros g (before & after & -> & Hb & Hg).
    rewrite filter_first.
    + unfold judge, Spec.ci_substring. rewrite <- contains_substring.
      repeat split.
      * intros Hs. apply String.eqb_neq in Hs. now rewrite Hs.
      * intros Hs Hw. now rewrite Hs, Hw.
      * intros Hs Hw Ht. apply not_true_is_false in Hw. now rewrite Hs, Hw, Ht.
      * intros Hs Hw Ht. apply not_true_is_false in Hw. apply String.eqb_neq in Ht.
        now rewrite Hs, Hw, Ht.
    + intros h Hh. specialize (Hb h Hh). rewrite <- mentionsb_mentions in Hb.
      now destruct (mentionsb pick h).
    + now apply mentionsb_mentions.
Qed.

Lemma classify_by_first_match_witness :
  Py.re_plain "giants" = true
  /\ classify "giants" [jets_bills_final; eagles_giants_final] = Some ELIMINATED.
Proof.
  split; [reflexivity|].
  apply (proj2 (classify_by_first_match "giants"
                  [jets_bills_final; eagles_giants_final] eq_refl)
               eagles_giants_final).
  - exists [jets_bills_final], []. split; [reflexivity|]. split.
    + intros h [<-|[]]. rewrite <- mentionsb_mentions. now vm_compute.
    + apply mentionsb_mentions. reflexivity.
  - reflexivity.
  - unfold Spec.ci_substring. rewrite <- contains_substring. now vm_compute.
  - discriminate.
Defined.

(** ** The teams offered for a pick *)

Lemma In_insert_sorted (x y : string) (l : list string) :
  In y (insert_sorted x l) <-> y = x \/ In y l.
Proof.
  induction l as [|z l IH]; simpl.
  - intuition.
  - destruct (String.compare x z) eqn:E; simpl.
    + apply String.compare_eq_iff in E. subst z. intuition.
    + intuition.
    + rewrite IH. intuition.
Qed.

Lemma In_sorted_set (y : string) (xs : list string) :
  In y (sorted_set xs) <-> In y xs.
Proof.
  unfold sorted_set. induction xs as [|x xs IH]; simpl.
  - reflexivity.
  - rewrite In_insert_sorted, IH. intuition.
Qed.

(** What the loop collects: the teams of unlocked games that are not
    past picks, the second team also not the bye placeholder. *)
Lemma In_available_teams (t : string) (pp : list string) (gs : list GameRecord) :
  In t (available_teams pp gs) <->
  exists g, In g gs /\ Locked g = false /\ ~ In t pp
            /\ (TeamA g = t \/ (TeamB g = t /\ t <> "Bye")).
Proof.
  induction gs as [|g gs IH]; simpl.
  - split; [intros [] | intros [g [[] _]]].
  - rewrite !in_app_iff, IH. clear IH. split.
    + intros [Ha|[Hb|[g' [Hin H]]]].
      * destruct (Locked g) eqn:L; simpl in Ha; [destruct Ha|].
        destruct (Py.member (TeamA g) pp) eqn:M; simpl in Ha; [destruct Ha|].
        destruct Ha as [<-|[]]. apply member_false in M.
        exists g. repeat split; auto.
      * destruct (Locked g) eqn:L; simpl in Hb; [destruct Hb|].
        destruct (Py.member (TeamB g) pp) eqn:M; simpl in Hb; [destruct Hb|].
        destruct (TeamB g =? "Bye") eqn:B; simpl in Hb; [destruct Hb|].
        destruct Hb as [<-|[]]. apply member_false in M. apply String.eqb_neq in B.
        exists g. repeat split; auto.
      * exists g'. tauto.
    + intros [g' [[<-|Hin] (L & P & [A|[B N]])]].
      * left. rewrite L. apply member_false in P. rewrite A, P. simpl. now left.
      * right; left. rewrite L. apply member_false in P. apply String.eqb_neq in N.
        rewrite B, P, N. simpl. now left.
      * right; right. exists g'. tauto.
      * right; right. exists g'. tauto.
Qed.

Lemma In_eligible_teams (t : string) (pp : list string) (gs : list GameRecord) :
  In t (eligible_teams pp gs) <->
  exists g, In g gs /\ Locked g = false /\ ~ In t pp
            /\ (TeamA g = t \/ (TeamB g = t /\ t <> "Bye")).
Proof.
  unfold eligible_teams. now rewrite In_sorted_set, In_available_teams.
Qed.

(** C3, the claim at a record whose first team is the placeholder: the
    loop tests only the second team against it. *)
Lemma bye_offered_as_first_team :
  eligible_teams [] [game "Bye" "Duke" "TBD" "Scheduled" "0-0" false] = ["Bye"; "Duke"]
  /\ In "Bye" (eligible_teams [] [game "Bye" "Duke" "TBD" "Scheduled" "0-0" false]).
Proof. split; [reflexivity | now left]. Qed.

(** C3, amended: when no record has the placeholder as its first team
    (the dummy games have it as second team only), the bye placeholder
    is never among the teams offered. *)
Theorem bye_never_offered (pp : list string) (gs : list GameRecord) :
  (forall g, In g gs -> TeamA g <> "Bye") ->
  ~ In "Bye" (eligible_teams pp gs).
Proof.
  intros HA Hin. apply In_eligible_teams in Hin.
  destruct Hin as (g & Hg & _ & _ & [A|[_ N]]).
  - exact (HA g Hg A).
  - now apply N.
Qed.

Lemma dummy_first_team_not_bye (pool_type : string) (g : GameRecord) :
  In g (dummy_games pool_type) -> TeamA g <> "Bye".
Proof.
  unfold dummy_games. rewrite in_map_iff. intros [t [<- Ht]]. simpl.
  destruct (pool_type =? "NFL Survivor"); simpl in Ht;
    repeat (destruct Ht as [<-|Ht]; [discriminate|]); destruct Ht.
Qed.

Lemma bye_never_offered_witness :
  ~ In "Bye" (eligible_teams ["Duke"] (dummy_games "March Madness (NCAA)")).
Proof.
  apply (bye_never_offered ["Duke"] (dummy_games "March Madness (NCAA)")).
  intros g Hg. vm_compute in Hg.
  repeat (destruct Hg as [<-|Hg]; [discriminate|]). destruct Hg.
Defined.

(** C4, the claim at a slate where a team has a locked and an unlocked
    game: the team is offered although it plays in a locked record. *)
Lemma offered_team_in_locked_game :
  In "Eagles"
     (eligible_teams []
        [ game "Eagles" "Giants" "TBD" "In Progress" "7-3" true;
          game "Eagles" "Cowboys" "TBD" "Scheduled" "0-0" false ])
  /\ Spec.plays "Eagles" (game "Eagles" "Giants" "TBD" "In Progress" "7-3" true)
  /\ Locked (game "Eagles" "Giants" "TBD" "In Progress" "7-3" true) = true.
Proof.
  split; [vm_compute; tauto | split; [now left | reflexivity]].
Qed.

(** C4, amended: every team offered is absent (as an exact string)
    from the past picks and plays in some record that is not locked;
    when team names are distinct within the slate, every record it
    plays in is not locked. *)
Theorem eligible_team_sound (pp : list string) (gs : list GameRecord) (t : string) :
  In t (eligible_teams pp gs) ->
  ~ In t pp
  /\ (exists g, In g gs /\ Spec.plays t g /\ Locked g = false)
  /\ (Spec.one_game_per_team gs ->
      forall g, In g gs -> Spec.plays t g -> Locked g = false).
Proof.
  intros Hin. apply In_eligible_teams in Hin.
  destruct Hin as (g0 & Hg0 & L & P & Hplay).
  assert (Hp0 : Spec.plays t g0) by (unfold Spec.plays; tauto).
  split; [exact P|]. split.
  - exists g0. auto.
  - intros Hone g Hg Hp. now rewrite (Hone t g g0 Hg Hg0 Hp Hp0).
Qed.

Lemma eligible_team_sound_witness :
  ~ In "Cowboys" ["Eagles"; "Chiefs"]
  /\ exists g,
       In g [ game "Eagles" "Giants" "TBD" "In Progress" "7-3" true;
              game "Cowboys" "Commanders" "TBD" "Scheduled" "0-0" false ]
       /\ Spec.plays "Cowboys" g /\ Locked g = false.
Proof.
  assert (H : In "Cowboys"
                (eligible_teams ["Eagles"; "Chiefs"]
                   [ game "Eagles" "Giants" "TBD" "In Progress" "7-3" true;
                     game "Cowboys" "Commanders" "TBD" "Scheduled" "0-0" false ]))
    by (vm_compute; tauto).
  destruct (eligible_team_sound _ _ _ H) as (H1 & H2 & _).
  split; assumption.
Defined.

(** ** The data fetcher *)

Lemma event_record_inv (ev : RawEvent) (g : GameRecord) :
  event_record ev = Some g ->
  exists e c0 c1 more s0 s1,
    ev = Shaped e
    /\ competitors e = c0 :: c1 :: more
    /\ Py.int_of_str (score c0) = Some s0
    /\ Py.int_of_str (score c1) = Some s1
    /\ g = {| TeamA := displayName c0; TeamB := displayName c1;
              Winner := if state e =? "post" then
                          if (s0 >? s1)%Z then displayName c0
                          else if (s1 >? s0)%Z then displayName c1
                          else "Tie"
                        else "TBD";
              Status := description e;
              Score := Py.str_of_int s0 ++ "-" ++ Py.str_of_int s1;
              Locked := Py.member (state e) ["in"; "post"] |}.
Proof.
  destruct ev as [|e]; simpl; [discriminate|].
  destruct (competitors e) as [|c0 [|c1 more]] eqn:Hc; simpl;
    try discriminate.
  - destruct (Py.int_of_str (score c0)); discriminate.
  - destruct (Py.int_of_str (score c0)) as [s0|] eqn:H0; simpl; [|discriminate].
    destruct (Py.int_of_str (score c1)) as [s1|] eqn:H1; simpl; [|discriminate].
    intros [= <-]. exists e, c0, c1, more, s0, s1. auto.
Qed.

Lemma event_record_well_formed (ev : RawEvent) :
  (exists g, event_record ev = Some g) <-> Spec.well_formed ev.
Proof.
  split.
  - intros [g Hg]. apply event_record_inv in Hg.
    destruct Hg as (e & c0 & c1 & more & s0 & s1 & H1 & H2 & H3 & H4 & _).
    exists e, c0, c1, more, s0, s1. auto.
  - intros (e & c0 & c1 & more & s0 & s1 & -> & Hc & H0 & H1).
    simpl. rewrite Hc. simpl. rewrite H0. simpl. rewrite H1. simpl. eauto.
Qed.

Lemma collect_games_none (events : list RawEvent) :
  (exists ev, In ev events /\ ~ Spec.well_formed ev) -> collect_games events = None.
Proof.
  induction events as [|ev events IH]; intros [bad [Hin Hbad]]; [destruct Hin|].
  simpl. destruct (event_record ev) as [g|] eqn:Hg; simpl; [|reflexivity].
  destruct Hin as [->|Hin].
  - exfalso. apply Hbad. apply event_record_well_formed. eauto.
  - rewrite IH by eauto. reflexivity.
Qed.

Lemma collect_games_In (events : list RawEvent) (gs : list GameRecord) (g : GameRecord) :
  collect_games events = Some gs -> In g gs ->
  exists ev, In ev events /\ event_record ev = Some g.
Proof.
  revert gs; induction events as [|ev events IH]; simpl; intros gs.
  - intros [= <-] [].
  - destruct (event_record ev) as [g0|] eqn:Hg; simpl; [|discriminate].
    destruct (collect_games events) as [gs0|]; simpl; [|discriminate].
    intros [= <-] [<-|Hin].
    + exists ev. auto.
    + destruct (IH gs0 eq_refl Hin) as [ev' [Hev Hr]]. exists ev'. auto.
Qed.

Lemma collect_games_some (events : list RawEvent) :
  (forall ev, In ev events -> Spec.well_formed ev) ->
  exists gs, collect_games events = Some gs /\ List.length gs = List.length events.
Proof.
  induction events as [|ev events IH]; intros Hwf; simpl.
  - exists []. auto.
  - destruct (proj2 (event_record_well_formed ev) (Hwf ev (or_introl eq_refl)))
      as [g Hg].
    destruct IH as [gs [Hgs Hlen]]; [intros ev' H'; apply Hwf; now right|].
    rewrite Hg, Hgs. simpl. exists (g :: gs). simpl. auto.
Qed.

(** Where the records of the result come from. *)
Lemma get_sports_data_origin (feed : Feed) (pool_type : string) (g : GameRecord) :
  In g (get_sports_data feed pool_type) ->
  In g (dummy_games pool_type)
  \/ exists events e,
       feed = FeedData (Some events) /\ In (Shaped e) events
       /\ event_record (Shaped e) = Some g.
Proof.
  unfold get_sports_data.
  destruct (try_games feed) as [[|g0 gs]|] eqn:Ht; auto.
  intros Hin. right.
  destruct feed as [|[events|]]; simpl in Ht; try discriminate.
  exists events.
  destruct (collect_games_In events (g0 :: gs) g Ht Hin) as [ev [Hev Hr]].
  destruct ev as [|e]; [discriminate|]. exists e. auto.
Qed.

Lemma dummy_games_scheduled (pool_type : string) (g : GameRecord) :
  In g (dummy_games pool_type) -> Spec.scheduled_unlocked g.
Proof.
  unfold dummy_games. rewrite in_map_iff. intros [t [<- _]].
  repeat split.
Qed.

Lemma dummy_games_nonempty (pool_type : string) : dummy_games pool_type <> [].
Proof.
  unfold dummy_games. destruct (pool_type =? "NFL Survivor"); discriminate.
Qed.

Lemma final_iff_post (st : string) :
  Spec.completionState st = Spec.final <-> st = "post".
Proof.
  unfold Spec.completionState.
  destruct (st =? "in") eqn:Ei.
  - apply String.eqb_eq in Ei. subst. split; discriminate.
  - destruct (st =? "post") eqn:Ep.
    + apply String.eqb_eq in Ep. tauto.
    + apply String.eqb_neq in Ep. split; [discriminate | tauto].
Qed.

(** C5, the claim at a finished game won by a team whose display name
    is the marker itself: the game is final and the winner reads TBD. *)
Lemma final_game_won_by_team_TBD :
  get_sports_data
    (FeedData (Some [Shaped (two_sided "Final" "post" "TBD" "3" "Duke" "1")]))
    "March Madness (NCAA)"
  = [game "TBD" "Duke" "TBD" "Final" "3-1" true]
  /\ Spec.completionState (state (two_sided "Final" "post" "TBD" "3" "Duke" "1"))
     = Spec.final
  /\ ~ (Winner (game "TBD" "Duke" "TBD" "Final" "3-1" true) <> "TBD"
        <-> Spec.completionState (state (two_sided "Final" "post" "TBD" "3" "Duke" "1"))
            = Spec.final).
Proof.
  split; [reflexivity|]. split; [reflexivity|].
  intros [_ H]. apply H; reflexivity.
Qed.

(** C5, amended: a record of the result is a dummy game, scheduled
    with winner TBD, or comes from a feed event; in that case a winner
    other than TBD means the event is final (state post), and when
    neither team is itself named TBD the winner differs from TBD
    exactly when the event is final. *)
Theorem winner_known_iff_final (feed : Feed) (pool_type : string) (g : GameRecord) :
  In g (get_sports_data feed pool_type) ->
  (In g (dummy_games pool_type) /\ Winner g = "TBD" /\ Status g = "Scheduled")
  \/ exists events e,
       feed = FeedData (Some events) /\ In (Shaped e) events
       /\ event_record (Shaped e) = Some g
       /\ (Winner g <> "TBD" -> Spec.completionState (state e) = Spec.final)
       /\ (TeamA g <> "TBD" -> TeamB g <> "TBD" ->
           (Winner g <> "TBD" <-> Spec.completionState (state e) = Spec.final)).
Proof.
  intros Hin. destruct (get_sports_data_origin feed pool_type g Hin)
    as [Hd|(events & e & Hf & He & Hr)].
  - left. destruct (dummy_games_scheduled pool_type g Hd) as (W & S & _). auto.
  - right. exists events, e.
    split; [assumption|]. split; [assumption|]. split; [assumption|].
    destruct (event_record_inv _ _ Hr)
      as (e' & c0 & c1 & more & s0 & s1 & [= <-] & _ & _ & _ & ->).
    simpl. rewrite final_iff_post.
    destruct (state e =? "post") eqn:Ep.
    + apply String.eqb_eq in Ep. split; [tauto|].
      intros HA HB. split; [tauto|]. intros _.
      destruct (s0 >? s1)%Z; [assumption|].
      destruct (s1 >? s0)%Z; [assumption | discriminate].
    + apply String.eqb_neq in Ep. split.
      * intros W. now contradiction W.
      * intros _ _. split; [intros W; now contradiction W | tauto].
Qed.

Lemma winner_known_iff_final_witness :
  (In eagles_giants_final (dummy_games "NFL Survivor")
   /\ Winner eagles_giants_final = "TBD" /\ Status eagles_giants_final = "Scheduled")
  \/ exists events e,
       FeedData (Some [Shaped (two_sided "Final" "post" "Eagles" "24" "Giants" "17")])
       = FeedData (Some events)
       /\ In (Shaped e) events
       /\ event_record (Shaped e) = Some eagles_giants_final
       /\ (Winner eagles_giants_final <> "TBD" ->
           Spec.completionState (state e) = Spec.final)
       /\ (TeamA eagles_giants_final <> "TBD" -> TeamB eagles_giants_final <> "TBD" ->
           (Winner eagles_giants_final <> "TBD"
            <-> Spec.completionState (state e) = Spec.final)).
Proof.
  apply (winner_known_iff_final
           (FeedData (Some [Shaped (two_sided "Final" "post" "Eagles" "24" "Giants" "17")]))
           "NFL Survivor" eagles_giants_final).
  left. reflexivity.
Defined.

(** C6, the claim at a finished game won by a team whose display name
    is Tie: the winner reads Tie although the scores differ. *)
Lemma final_game_won_by_team_Tie :
  event_record (Shaped (two_sided "Final" "post" "Tie" "3" "Duke" "1"))
  = Some (game "Tie" "Duke" "Tie" "Final" "3-1" true)
  /\ Py.int_of_str "3" = Some 3%Z /\ Py.int_of_str "1" = Some 1%Z
  /\ ~ (Winner (game "Tie" "Duke" "Tie" "Final" "3-1" true) = "Tie" <-> 3%Z = 1%Z).
Proof.
  repeat split; try reflexivity.
  intros [H _]. discriminate (H eq_refl).
Qed.

(** C6, amended: for a feed event normalised as final (state post) in
    which neither team is itself named Tie, the winner is Tie exactly
    when the two scores are equal, and otherwise the name of the side
    with the strictly greater score. *)
Theorem final_winner_by_score (e : Event) (g : GameRecord) :
  event_record (Shaped e) = Some g ->
  Spec.completionState (state e) = Spec.final ->
  TeamA g <> "Tie" -> TeamB g <> "Tie" ->
  exists c0 c1 more s0 s1,
    competitors e = c0 :: c1 :: more
    /\ Py.int_of_str (score c0) = Some s0
    /\ Py.int_of_str (score c1) = Some s1
    /\ TeamA g = displayName c0 /\ TeamB g = displayName c1
    /\ (Winner g = "Tie" <-> s0 = s1)
    /\ ((s0 > s1)%Z -> Winner g = TeamA g)
    /\ ((s1 > s0)%Z -> Winner g = TeamB g).
Proof.
  intros Hr Hfin. apply final_iff_post in Hfin.
  destruct (event_record_inv _ _ Hr)
    as (e' & c0 & c1 & more & s0 & s1 & [= <-] & Hc & H0 & H1 & ->).
  simpl. intros HA HB. rewrite Hfin. simpl.
  exists c0, c1, more, s0, s1. repeat split; try assumption.
  - destruct (Z.gtb_spec s0 s1); [contradiction|].
    destruct (Z.gtb_spec s1 s0); [contradiction|]. intros _. lia.
  - intros ->. rewrite !Z.gtb_ltb, Z.ltb_irrefl. reflexivity.
  - intros H. destruct (Z.gtb_spec s0 s1); [reflexivity | lia].
  - intros H. destruct (Z.gtb_spec s0 s1); [lia|].
    destruct (Z.gtb_spec s1 s0); [reflexivity | lia].
Qed.

Lemma final_winner_by_score_witness :
  exists c0 c1 more s0 s1,
    competitors (two_sided "Final" "post" "Jets" "10" "Bills" "10") = c0 :: c1 :: more
    /\ Py.int_of_str (score c0) = Some s0
    /\ Py.int_of_str (score c1) = Some s1
    /\ TeamA jets_bills_final = displayName c0
    /\ TeamB jets_bills_final = displayName c1
    /\ (Winner jets_bills_final = "Tie" <-> s0 = s1)
    /\ ((s0 > s1)%Z -> Winner jets_bills_final = TeamA jets_bills_final)
    /\ ((s1 > s0)%Z -> Winner jets_bills_final = TeamB jets_bills_final).
Proof.
  apply (final_winner_by_score (two_sided "Final" "post" "Jets" "10" "Bills" "10")
           jets_bills_final).
  - reflexivity.
  - reflexivity.
  - discriminate.
  - discriminate.
Defined.

(** C7: [get_sports_data] is a total function, it always returns a
    slate; when the request fails, the response is malformed or it
    holds no event, the slate is the dummy one, which is not empty and
    whose records are all scheduled with winner TBD and not locked. *)
Theorem fallback_on_feed_failure (feed : Feed) (pool_type : string) :
  Spec.unreachable feed \/ Spec.malformed feed \/ Spec.zero_events feed ->
  get_sports_data feed pool_type = dummy_games pool_type
  /\ get_sports_data feed pool_type <> []
  /\ forall g, In g (get_sports_data feed pool_type) -> Spec.scheduled_unlocked g.
Proof.
  intros H.
  assert (E : get_sports_data feed pool_type = dummy_games pool_type).
  { unfold get_sports_data.
    destruct H as [->|[(events & ev & -> & Hin & Hbad)|[->| ->]]]; try reflexivity.
    simpl. rewrite collect_games_none by eauto. reflexivity. }
  rewrite E. split; [reflexivity|]. split.
  - apply dummy_games_nonempty.
  - apply dummy_games_scheduled.
Qed.

Lemma fallback_on_feed_failure_witness :
  get_sports_data
    (FeedData (Some [Shaped (two_sided "Final" "post" "Eagles" "24" "Giants" "")]))
    "March Madness (NCAA)"
  = dummy_games "March Madness (NCAA)".
Proof.
  apply (fallback_on_feed_failure
           (FeedData (Some [Shaped (two_sided "Final" "post" "Eagles" "24" "Giants" "")]))
           "March Madness (NCAA)").
  right; left.
  exists [Shaped (two_sided "Final" "post" "Eagles" "24" "Giants" "")],
         (Shaped (two_sided "Final" "post" "Eagles" "24" "Giants" "")).
  split; [reflexivity|]. split; [now left|].
  intros (e & c0 & c1 & more & s0 & s1 & [= <-] & [= <- <- _] & _ & H1).
  discriminate H1.
Defined.

(** A feed whose events are all well formed, and there is one at
    least, is returned normalised, one record per event. *)
Lemma feed_games_returned (events : list RawEvent) (pool_type : string) :
  events <> [] -> (forall ev, In ev events -> Spec.well_formed ev) ->
  collect_games events = Some (get_sports_data (FeedData (Some events)) pool_type)
  /\ List.length (get_sports_data (FeedData (Some events)) pool_type)
     = List.length events.
Proof.
  intros Hne Hwf. destruct (collect_games_some events Hwf) as [gs [Hgs Hlen]].
  unfold get_sports_data. simpl. rewrite Hgs.
  destruct gs as [|g gs]; [|auto].
  destruct events; [contradiction | discriminate].
Qed.

(** ** The reveal gate *)

Lemma reveal_status_default :
  get_reveal_status ReadRaises = false
  /\ get_reveal_status (CellValue None) = false
  /\ get_reveal_status (CellValue (Some "False")) = false
  /\ get_reveal_status (CellValue (Some "TRUE")) = true.
Proof. repeat split. Qed.

Lemma picks_board_hidden (df : DataFrame) (week : string) (gs : list GameRecord) :
  picks_board false df week gs = Some hidden_marker.
Proof. reflexivity. Qed.

(** C8: while the picks are not revealed, the board part of the Player
    Portal is the hidden marker, the same for any two sheets of
    players, selected weeks and game lists. *)
Theorem hidden_board_independent_of_players
  (b2 : CellRead) (df1 df2 : DataFrame) (week1 week2 : string)
  (games1 games2 : list GameRecord) :
  get_reveal_status b2 = false ->
  picks_board (get_reveal_status b2) df1 week1 games1 = Some hidden_marker
  /\ picks_board (get_reveal_status b2) df1 week1 games1
     = picks_board (get_reveal_status b2) df2 week2 games2.
Proof.
  intros ->. now rewrite !picks_board_hidden.
Qed.

Lemma hidden_board_independent_of_players_witness :
  picks_board (get_reveal_status (CellValue (Some "False")))
    {| columns := ["Name"; "Status"; "Week 1"]; rows := [no_pick_row] |}
    "Week 1" [eagles_giants_final]
  = picks_board (get_reveal_status (CellValue (Some "False")))
      {| columns := []; rows := [] |} "Week 2" [].
Proof.
  apply (hidden_board_independent_of_players (CellValue (Some "False"))).
  reflexivity.
Defined.

(** Once revealed, the board does show the players' data. *)
Lemma revealed_board_depends_on_players :
  picks_board true {| columns := ["Name"; "Status"; "Week 1"]; rows := [no_pick_row] |}
    "Week 1" [eagles_giants_final]
  <> picks_board true {| columns := []; rows := [] |} "Week 1" [eagles_giants_final].
Proof. vm_compute. discriminate. Qed.

(** ** Hashing *)

Lemma make_hashes_abc :
  make_hashes "abc"
  = "ba7816bf8f01cfea414140de5dae2223b00361a396177a9cb410ff61f20015ad".
Proof. vm_compute. reflexivity. Qed.

Lemma make_hashes_empty :
  make_hashes ""
  = "e3b0c44298fc1c149afbf4c8996fb92427ae41e4649b934ca495991b7852b855".
Proof. vm_compute. reflexivity. Qed.

Lemma make_hashes_two_blocks :
  make_hashes "abcdbcdecdefdefgefghfghighijhijkijkljklmklmnlmnomnopnopq"
  = "248d6a61d20638b8e5c026930c3e6039a33ce45964ff2167f6ecedd419db06c1".
Proof. vm_compute. reflexivity. Qed.

Lemma string_length_app (s1 s2 : string) :
  String.length (s1 ++ s2) = String.length s1 + String.length s2.
Proof. induction s1 as [|c s1 IH]; simpl; [reflexivity | now rewrite IH]. Qed.

Lemma hex8_length (x : Z) : String.length (Sha256.hex8 x) = 8.
Proof. reflexivity. Qed.

(** The digest has a fixed length of 64 hexadecimal digits. *)
Lemma make_hashes_length (password : string) :
  String.length (make_hashes password) = 64.
Proof.
  unfold make_hashes, Sha256.hexdigest.
  rewrite !string_length_app, !hex8_length. reflexivity.
Qed.

Lemma check_hashes_iff (password hashed_text : string) :
  check_hashes password hashed_text = true <-> make_hashes password = hashed_text.
Proof.
  unfold check_hashes.
  destruct (String.eqb_spec (make_hashes password) hashed_text); split;
    congruence.
Qed.

(** C9: the hash is a function of the password alone (equal passwords
    give equal digests), a password verifies against its own hash, and
    verification succeeds exactly when the hash of the supplied
    password equals the supplied digest. *)
Theorem make_check_hashes (p : string) :
  (forall q, q = p -> make_hashes q = make_hashes p)
  /\ check_hashes p (make_hashes p) = true
  /\ (forall digest, check_hashes p digest = true <-> make_hashes p = digest).
Proof.
  split; [intros q ->; reflexivity|]. split.
  - now apply check_hashes_iff.
  - intros digest. apply check_hashes_iff.
Qed.

Lemma make_check_hashes_witness :
  check_hashes "abc"
    "ba7816bf8f01cfea414140de5dae2223b00361a396177a9cb410ff61f20015ad" = true.
Proof.
  apply (proj2 (proj2 (make_check_hashes "abc"))). vm_compute. reflexivity.
Defined.

(** ** Registration *)

Lemma worksheet_append_same (sh : Spreadsheet) (title : string)
  (ws : Worksheet) (values : list string) :
  worksheet sh title = inr ws ->
  worksheet (append_row sh title values) title = inr (ws ++ [values]).
Proof.
  induction sh as [|[t w] sh IH]; simpl; [discriminate|].
  destruct (t =? title) eqn:E; simpl; rewrite E.
  - now intros [= ->].
  - exact IH.
Qed.

Lemma worksheet_append_other (sh : Spreadsheet) (title other : string)
  (values : list string) :
  other <> title ->
  worksheet (append_row sh title values) other = worksheet sh other.
Proof.
  intros Hne. induction sh as [|[t w] sh IH]; simpl; [reflexivity|].
  destruct (t =? title) eqn:E; simpl.
  - apply String.eqb_eq in E. subst t.
    apply not_eq_sym in Hne. apply String.eqb_neq in Hne. now rewrite Hne.
  - destruct (t =? other); [reflexivity | exact IH].
Qed.

(** C10: a successful registration answers Success and appends to the
    pool's tab exactly the row name, email, hash of the password,
    Alive; the other tabs are as before. *)
Theorem register_user_appends_alive
  (sh sh' : Spreadsheet) (sheet_name name email password msg : string) :
  register_user sh sheet_name name email password = ((true, msg), sh') ->
  msg = "Success"
  /\ sh' = append_row sh sheet_name [name; email; make_hashes password; "Alive"]
  /\ (exists ws,
        worksheet sh sheet_name = inr ws
        /\ worksheet sh' sheet_name
           = inr (ws ++ [[name; email; make_hashes password; "Alive"]]))
  /\ (forall other, other <> sheet_name -> worksheet sh' other = worksheet sh other).
Proof.
  unfold register_user.
  destruct (worksheet sh sheet_name) as [e|ws] eqn:Hw; [discriminate|].
  destruct (get_all_records ws) as [e|existing]; [discriminate|].
  destruct (_ && _); [discriminate|].
  intros [= <- <-]. split; [reflexivity|]. split; [reflexivity|]. split.
  - exists ws. split; [reflexivity|]. now apply worksheet_append_same.
  - intros other Hne. now apply worksheet_append_other.
Qed.

Lemma register_user_appends_alive_witness :
  exists ws,
    worksheet [("NFL", [nfl_header])] "NFL" = inr ws
    /\ worksheet
         (snd (register_user [("NFL", [nfl_header])] "NFL" "Ann" "ann@example.org" "abc"))
         "NFL"
       = inr (ws ++ [["Ann"; "ann@example.org"; make_hashes "abc"; "Alive"]]).
Proof.
  apply (register_user_appends_alive
           [("NFL", [nfl_header])]
           (snd (register_user [("NFL", [nfl_header])] "NFL" "Ann" "ann@example.org" "abc"))
           "NFL" "Ann" "ann@example.org" "abc" "Success").
  vm_compute. reflexivity.
Defined.

(** A call that does not succeed leaves the spreadsheet as it was. *)
Lemma register_user_failure_keeps_sheet
  (sh sh' : Spreadsheet) (sheet_name name email password msg : string) :
  register_user sh sheet_name name email password = ((false, msg), sh') -> sh' = sh.
Proof.
  unfold register_user.
  destruct (worksheet sh sheet_name) as [e|ws]; [now intros [= _ <-]|].
  destruct (get_all_records ws) as [e|existing]; [now intros [= _ <-]|].
  destruct (_ && _); [now intros [= _ <-] | discriminate].
Qed.

(** Under the header the admin page writes, the appended row reads
    back with status Alive. *)
Lemma registered_row_reads_alive (name email password : string) :
  cell (as_record nfl_header [name; email; make_hashes password; "Alive"]) "Status"
  = "Alive".
Proof. reflexivity. Qed.

(** ** The scenarios of the specification *)

Lemma event_record_fields (e : Event) (g : GameRecord) :
  event_record (Shaped e) = Some g ->
  Status g = description e
  /\ (Locked g = true <-> state e = "in" \/ state e = "post").
Proof.
  intros Hr. destruct (event_record_inv _ _ Hr)
    as (e' & c0 & c1 & more & s0 & s1 & [= <-] & _ & _ & _ & ->).
  cbn [Status Locked]. split; [reflexivity|].
  rewrite member_In. simpl. intuition.
Qed.

Lemma scenario_two_final_games :
  get_sports_data
    (FeedData (Some [ Shaped (two_sided "Final" "post" "Eagles" "24" "Giants" "17");
                      Shaped (two_sided "Final" "post" "Jets" "10" "Bills" "10") ]))
    "NFL Survivor"
  = [eagles_giants_final; jets_bills_final]
  /\ map (fun pick => classify pick [eagles_giants_final; jets_bills_final])
         ["Eagles"; "Giants"; "Jets"; "Dolphins"]
     = [Some SAFE; Some ELIMINATED; Some TIE; Some UNKNOWN].
Proof. split; reflexivity. Qed.

Lemma scenario_eligibility :
  eligible_teams ["Eagles"; "Chiefs"]
    [ game "Eagles" "Giants" "TBD" "In Progress" "7-3" true;
      game "Cowboys" "Bye" "TBD" "Scheduled" "0-0" false ]
  = ["Cowboys"].
Proof. reflexivity. Qed.

Lemma scenario_pick_distribution :
  value_counts ["Chiefs"; "Bills"; "Chiefs"] = [("Chiefs", 2); ("Bills", 1)].
Proof. reflexivity. Qed.

(** * Further properties of the script *)

(** ** The digest written to the sheet *)

Lemma string_forall_app (p : ascii -> bool) (s1 s2 : string) :
  string_forall p (s1 ++ s2) = string_forall p s1 && string_forall p s2.
Proof.
  induction s1 as [|c s1 IH]; simpl; [reflexivity|].
  now rewrite IH, andb_assoc.
Qed.

Lemma hex_digit_lower (n : Z) :
  (0 <= n < 16)%Z -> is_lower_hex (Sha256.hex_digit n) = true.
Proof.
  intros H. replace n with (Z.of_nat (Z.to_nat n)) by lia.
  assert (Hk : Z.to_nat n < 16) by lia.
  revert Hk. generalize (Z.to_nat n). intros k Hk.
  do 16 (destruct k as [|k]; [reflexivity|]). lia.
Qed.

Lemma hex8_lower (x : Z) : string_forall is_lower_hex (Sha256.hex8 x) = true.
Proof.
  unfold Sha256.hex8. cbn [map string_of_list_ascii string_forall].
  rewrite !hex_digit_lower; [reflexivity| | | | | | | |];
    apply Z.mod_pos_bound; lia.
Qed.

Lemma make_hashes_digest_shape (password : string) :
  String.length (make_hashes password) = 64
  /\ string_forall is_lower_hex (make_hashes password) = true.
Proof.
  split; [apply make_hashes_length|].
  unfold make_hashes, Sha256.hexdigest.
  now rewrite !string_forall_app, !hex8_lower.
Qed.

(** X1: whatever the password, [make_hashes] yields 64 characters, each
    a digit or a lower-case letter a to f. *)
Theorem make_hashes_hex_digest (password : string) :
  String.length (make_hashes password) = 64
  /\ string_forall is_lower_hex (make_hashes password) = true.
Proof.
  split.
  - unfold make_hashes, Sha256.hexdigest.
    rewrite !string_length_app, !hex8_length. reflexivity.
  - unfold make_hashes, Sha256.hexdigest.
    now rewrite !string_forall_app, !hex8_lower.
Qed.

(** ** The slate the fetcher returns *)

Lemma collect_games_well_formed (events : list RawEvent) (gs : list GameRecord) :
  collect_games events = Some gs ->
  (forall ev, In ev events -> Spec.well_formed ev)
  /\ List.length gs = List.length events.
Proof.
  revert gs; induction events as [|ev events IH]; simpl; intros gs.
  - intros [= <-]. split; [intros ev []| reflexivity].
  - destruct (event_record ev) as [g|] eqn:Hg; simpl; [|discriminate].
    destruct (collect_games events) as [gs0|]; simpl; [|discriminate].
    intros [= <-]. destruct (IH gs0 eq_refl) as [Hwf Hlen]. split.
    + intros ev' [<-|Hin]; [|now apply Hwf].
      apply event_record_well_formed. eauto.
    + simpl. now rewrite Hlen.
Qed.

(** X2: the slate is never empty and never a mixture: it is either the
    dummy games, or the records of all events of the feed, one per
    event in feed order, every event being readable. *)
Theorem get_sports_data_all_or_nothing (feed : Feed) (pool_type : string) :
  get_sports_data feed pool_type <> []
  /\ (get_sports_data feed pool_type = dummy_games pool_type
      \/ exists events,
           feed = FeedData (Some events)
           /\ collect_games events = Some (get_sports_data feed pool_type)
           /\ (forall ev, In ev events -> Spec.well_formed ev)
           /\ List.length (get_sports_data feed pool_type) = List.length events).
Proof.
  unfold get_sports_data.
  destruct (try_games feed) as [[|g gs]|] eqn:Ht.
  - split; [apply dummy_games_nonempty | now left].
  - split; [discriminate|]. right.
    destruct feed as [|[events|]]; simpl in Ht; try discriminate.
    exists events. destruct (collect_games_well_formed _ _ Ht) as [Hwf Hlen].
    auto.
  - split; [apply dummy_games_nonempty | now left].
Qed.

(** X3: for a feed that is read without error, a team all of whose
    games have begun (state in or post) is not offered for a pick,
    whatever the past picks. *)
Theorem started_team_not_offered
  (events : list RawEvent) (pool_type : string) (pp : list string) (t : string) :
  events <> [] ->
  (forall ev, In ev events -> Spec.well_formed ev) ->
  (forall e c, In (Shaped e) events -> In c (firstn 2 (competitors e)) ->
               displayName c = t -> state e = "in" \/ state e = "post") ->
  ~ In t (eligible_teams pp (get_sports_data (FeedData (Some events)) pool_type)).
Proof.
  intros Hne Hwf Hstarted Hin.
  destruct (feed_games_returned events pool_type Hne Hwf) as [Hc _].
  apply In_eligible_teams in Hin.
  destruct Hin as (g & Hg & Hl & _ & Hplay).
  destruct (collect_games_In _ _ g Hc Hg) as (ev & Hev & Hr).
  destruct (event_record_inv _ _ Hr)
    as (e & c0 & c1 & more & s0 & s1 & -> & Hcs & _ & _ & ->).
  cbn [TeamA TeamB Locked] in Hl, Hplay.
  assert (Hs : state e = "in" \/ state e = "post").
  { destruct Hplay as [Ha|[Hb _]].
    - apply (Hstarted e c0 Hev); [rewrite Hcs; now left | exact Ha].
    - apply (Hstarted e c1 Hev); [rewrite Hcs; right; now left | exact Hb]. }
  apply member_false in Hl. apply Hl. simpl. intuition.
Qed.

Lemma started_team_not_offered_witness :
  ~ In "Eagles"
       (eligible_teams []
          (get_sports_data
             (FeedData (Some [ Shaped (two_sided "In Progress" "in" "Eagles" "7" "Giants" "3");
                               Shaped (two_sided "Scheduled" "pre" "Jets" "0" "Bills" "0") ]))
             "NFL Survivor")).
Proof.
  apply started_team_not_offered.
  - discriminate.
  - intros ev [<-|[<-|[]]]; apply event_record_well_formed; eexists; reflexivity.
  - intros e c [[= <-]|[[= <-]|[]]]; simpl.
    + intros _ _. now left.
    + intros [<-|[<-|[]]]; discriminate.
Defined.

(** ** The select box of teams *)

Lemma ascii_lt_trans (x y z : ascii) :
  Ascii.compare x y = Lt -> Ascii.compare y z = Lt -> Ascii.compare x z = Lt.
Proof.
  unfold Ascii.compare. rewrite !N.compare_lt_iff. apply N.lt_trans.
Qed.

Lemma str_lt_trans (a b c : string) : str_lt a b -> str_lt b c -> str_lt a c.
Proof.
  unfold str_lt. revert b c.
  induction a as [|x a IH]; intros [|y b] [|z c]; simpl; try discriminate; auto.
  destruct (Ascii.compare x y) eqn:Exy; try discriminate.
  - apply Ascii.compare_eq_iff in Exy. subst y.
    destruct (Ascii.compare x z); try discriminate; auto. apply IH.
  - intros _. destruct (Ascii.compare y z) eqn:Eyz; try discriminate.
    + apply Ascii.compare_eq_iff in Eyz. subst z. now rewrite Exy.
    + now rewrite (ascii_lt_trans x y z Exy Eyz).
Qed.

Lemma str_lt_irrefl (a : string) : ~ str_lt a a.
Proof.
  unfold str_lt. assert (E : String.compare a a = Eq).
  { induction a as [|x a IH]; simpl; [reflexivity|].
    unfold Ascii.compare. now rewrite N.compare_refl. }
  rewrite E. discriminate.
Qed.

Lemma insert_sorted_sorted (x : string) (l : list string) :
  StronglySorted str_lt l -> StronglySorted str_lt (insert_sorted x l).
Proof.
  induction 1 as [|y l Hs IH Hall]; simpl.
  - repeat constructor.
  - destruct (String.compare x y) eqn:E.
    + now constructor.
    + constructor; [now constructor|]. constructor; [exact E|].
      rewrite Forall_forall in *. intros z Hz.
      apply (str_lt_trans x y z E). now apply Hall.
    + constructor; [exact IH|].
      rewrite Forall_forall in *. intros z Hz.
      apply In_insert_sorted in Hz. destruct Hz as [->|Hz]; [|now apply Hall].
      unfold str_lt. rewrite String.compare_antisym, E. reflexivity.
Qed.

Lemma sorted_set_sorted (xs : list string) : StronglySorted str_lt (sorted_set xs).
Proof.
  unfold sorted_set. induction xs as [|x xs IH]; simpl.
  - constructor.
  - now apply insert_sorted_sorted.
Qed.

Lemma sorted_NoDup (l : list string) : StronglySorted str_lt l -> NoDup l.
Proof.
  induction 1 as [|y l Hs IH Hall]; constructor; [|exact IH].
  intros Hin. rewrite Forall_forall in Hall.
  exact (str_lt_irrefl y (Hall y Hin)).
Qed.

(** X4: the teams offered in the select box are in strictly ascending
    order, so that no team is listed twice; the list starts with the
    empty choice. *)
Theorem pick_options_ascending (pp : list string) (gs : list GameRecord) :
  StronglySorted str_lt (eligible_teams pp gs)
  /\ NoDup (eligible_teams pp gs)
  /\ pick_options pp gs = "" :: eligible_teams pp gs.
Proof.
  assert (H := sorted_set_sorted (available_teams pp gs)).
  split; [exact H|]. split; [now apply sorted_NoDup | reflexivity].
Qed.

(** X5: every team of a game that is not locked is offered, unless it
    is a past pick or, as second team, the bye placeholder. *)
Theorem open_game_teams_offered (pp : list string) (gs : list GameRecord) (g : GameRecord) :
  In g gs -> Locked g = false ->
  (~ In (TeamA g) pp -> In (TeamA g) (eligible_teams pp gs))
  /\ (~ In (TeamB g) pp -> TeamB g <> "Bye" -> In (TeamB g) (eligible_teams pp gs)).
Proof.
  intros Hg Hl. split.
  - intros Hp. apply In_eligible_teams. exists g. tauto.
  - intros Hp Hb. apply In_eligible_teams. exists g. tauto.
Qed.

Lemma open_game_teams_offered_witness :
  In "Duke" (eligible_teams ["UNC"] (dummy_games "March Madness (NCAA)")).
Proof.
  apply (open_game_teams_offered ["UNC"] (dummy_games "March Madness (NCAA)")
           (game "Duke" "Bye" "TBD" "Scheduled" "0-0" false)).
  - left. reflexivity.
  - reflexivity.
  - intros [H|[]]. discriminate H.
Defined.

Lemma In_past_picks (p : string) (user_row : Row) (cols : list string) (week : string) :
  In p (past_picks user_row cols week) <->
  exists c, In c cols /\ c <> week /\ cell user_row c = p /\ p <> "".
Proof.
  unfold past_picks. rewrite in_map_iff. split.
  - intros (c & <- & Hc). apply filter_In in Hc. destruct Hc as [Hc Hb].
    apply andb_true_iff in Hb. destruct Hb as [H1 H2].
    apply negb_true_iff in H1, H2. apply String.eqb_neq in H1, H2.
    exists c. auto.
  - intros (c & Hc & Hw & <- & Hne). exists c. split; [reflexivity|].
    apply filter_In. split; [exact Hc|].
    apply String.eqb_neq in Hw, Hne. now rewrite Hw, Hne.
Qed.

(** X6: a team the player has picked in another week or round is never
    offered again, whatever the games of the selected week. *)
Theorem past_pick_not_offered_again
  (user_row : Row) (cols : list string) (week c : string) (gs : list GameRecord) :
  In c cols -> c <> week -> cell user_row c <> "" ->
  ~ In (cell user_row c) (eligible_teams (past_picks user_row cols week) gs).
Proof.
  intros Hc Hw Hne Hin. apply In_eligible_teams in Hin.
  destruct Hin as (g & _ & _ & Hp & _). apply Hp.
  apply In_past_picks. exists c. auto.
Qed.

Lemma past_pick_not_offered_again_witness :
  ~ In "Eagles"
       (eligible_teams
          (past_picks [("Name", "Ann"); ("Week 1", "Eagles"); ("Week 2", "")]
                      ["Week 1"; "Week 2"] "Week 2")
          [game "Eagles" "Giants" "TBD" "Scheduled" "0-0" false]).
Proof.
  apply (past_pick_not_offered_again
           [("Name", "Ann"); ("Week 1", "Eagles"); ("Week 2", "")]
           ["Week 1"; "Week 2"] "Week 2" "Week 1").
  - left. reflexivity.
  - discriminate.
  - discriminate.
Defined.

(** ** What the standings loop tells *)






Lemma filter_head_split {A : Type} (p : A -> bool) (l : list A) (x : A) (rest : list A) :
  filter p l = x :: rest ->
  exists before after,
    l = before ++ x :: after
    /\ (forall y, In y before -> p y = false)
    /\ p x = true.
Proof.
  induction l as [|a l IH]; simpl; [discriminate|].
  destruct (p a) eqn:Ea.
  - intros [= <- _]. exists [], l. repeat split; auto. intros y [].
  - intros H. destruct (IH H) as (before & after & -> & Hb & Hx).
    exists (a :: before), after. repeat split; auto.
    intros y [<-|Hy]; auto.
Qed.




(** ** What the board shows *)





(** ** The breakdown of picks *)

Lemma count_value_tally (v k : string) (c : list (string * nat)) :
  tally (count_value v c) k = tally c k + (if v =? k then 1 else 0).
Proof.
  induction c as [|[k0 n0] c IH]; simpl.
  - destruct (v =? k); reflexivity.
  - destruct (String.eqb_spec k0 v) as [->|Hne]; simpl.
    + destruct (v =? k); lia.
    + rewrite IH. destruct (k0 =? k) eqn:E; [|reflexivity].
      apply String.eqb_eq in E. subst k0.
      apply not_eq_sym in Hne. apply String.eqb_neq in Hne. rewrite Hne. lia.
Qed.

Lemma count_value_keys (v k : string) (c : list (string * nat)) :
  In k (map fst (count_value v c)) <-> k = v \/ In k (map fst c).
Proof.
  induction c as [|[k0 n0] c IH]; simpl.
  - intuition.
  - destruct (String.eqb_spec k0 v) as [->|Hne]; simpl.
    + intuition.
    + rewrite IH. intuition.
Qed.

Lemma count_value_NoDup (v : string) (c : list (string * nat)) :
  NoDup (map fst c) -> NoDup (map fst (count_value v c)).
Proof.
  induction c as [|[k0 n0] c IH]; simpl; intros H.
  - repeat constructor. intros [].
  - inversion H as [|? ? Hnot Hnd]; subst.
    destruct (String.eqb_spec k0 v) as [->|Hne]; simpl.
    + now constructor.
    + constructor; [|now apply IH].
      rewrite count_value_keys. intros [E|Hin]; [congruence | contradiction].
Qed.

Lemma count_value_pos (v : string) (c : list (string * nat)) :
  Forall (fun kv => 0 < snd kv) c -> Forall (fun kv => 0 < snd kv) (count_value v c).
Proof.
  induction c as [|[k0 n0] c IH]; simpl; intros H.
  - repeat constructor.
  - inversion H; subst. destruct (k0 =? v); constructor; simpl in *; auto; lia.
Qed.

Lemma tallies_invariant (col : list string) (acc : list (string * nat)) :
  NoDup (map fst acc) -> Forall (fun kv => 0 < snd kv) acc ->
  let r := fold_left (fun a v => count_value v a) col acc in
  NoDup (map fst r)
  /\ Forall (fun kv => 0 < snd kv) r
  /\ (forall k, tally r k = tally acc k + count_occ string_dec col k)
  /\ (forall k, In k (map fst r) <-> In k (map fst acc) \/ In k col).
Proof.
  revert acc; induction col as [|v col IH]; simpl; intros acc Hnd Hpos.
  - repeat split; auto; intuition.
  - destruct (IH (count_value v acc) (count_value_NoDup v acc Hnd)
                (count_value_pos v acc Hpos)) as (H1 & H2 & H3 & H4).
    repeat split; auto.
    + intros k. rewrite H3, count_value_tally.
      destruct (string_dec v k) as [->|Hne].
      * rewrite String.eqb_refl. lia.
      * apply String.eqb_neq in Hne. rewrite Hne. lia.
    + rewrite H4, count_value_keys. intuition.
    + rewrite H4, count_value_keys. intuition.
Qed.

Lemma tally_In (c : list (string * nat)) (k : string) (n : nat) :
  NoDup (map fst c) ->
  (In (k, n) c <-> In k (map fst c) /\ tally c k = n).
Proof.
  induction c as [|[k0 n0] c IH]; simpl; intros H.
  - intuition.
  - inversion H as [|? ? Hnot Hnd]; subst.
    destruct (String.eqb_spec k0 k) as [->|Hne].
    + split.
      * intros [[= <-]|Hin]; [auto|].
        exfalso. apply Hnot. apply in_map_iff. now exists (k, n).
      * intros [_ <-]. now left.
    + rewrite (IH Hnd). split.
      * intros [[= E _]|Hin]; [contradiction | tauto].
      * intros [[E|Hin] Ht]; [contradiction | tauto].
Qed.

Lemma insert_by_count_perm (kv : string * nat) (l : list (string * nat)) :
  Permutation (insert_by_count kv l) (kv :: l).
Proof.
  induction l as [|kv' l IH]; simpl; [reflexivity|].
  destruct (snd kv' <? snd kv)%nat; [reflexivity|].
  rewrite IH. apply perm_swap.
Qed.

Lemma by_count_perm (l : list (string * nat)) :
  Permutation (fold_right insert_by_count [] l) l.
Proof.
  induction l as [|kv l IH]; simpl; [reflexivity|].
  rewrite insert_by_count_perm. now constructor.
Qed.

Lemma insert_by_count_sorted (kv : string * nat) (l : list (string * nat)) :
  StronglySorted count_ge l -> StronglySorted count_ge (insert_by_count kv l).
Proof.
  induction 1 as [|kv' l Hs IH Hall]; simpl.
  - repeat constructor.
  - destruct (Nat.ltb_spec (snd kv') (snd kv)) as [Hlt|Hge].
    + constructor; [now constructor|]. constructor; [unfold count_ge; lia|].
      rewrite Forall_forall in *. intros z Hz. specialize (Hall z Hz).
      unfold count_ge in *. lia.
    + constructor; [exact IH|].
      rewrite Forall_forall in *. intros z Hz.
      apply (Permutation_in _ (insert_by_count_perm kv l)) in Hz.
      destruct Hz as [<-|Hz]; [exact Hge | now apply Hall].
Qed.

Lemma value_counts_spec (col : list string) :
  NoDup (map fst (value_counts col))
  /\ StronglySorted count_ge (value_counts col)
  /\ forall v n, In (v, n) (value_counts col) <->
                 In v col /\ n = count_occ string_dec col v.
Proof.
  unfold value_counts.
  destruct (tallies_invariant col [] (NoDup_nil _) (Forall_nil _))
    as (Hnd & _ & Ht & Hk).
  set (r := fold_left (fun a v => count_value v a) col []) in *.
  assert (P := by_count_perm r). split; [|split].
  - apply (Permutation_NoDup (Permutation_sym (Permutation_map fst P)) Hnd).
  - clear. induction r as [|kv r IH]; simpl; [constructor|].
    now apply insert_by_count_sorted.
  - intros v n. split.
    + intros H. apply (Permutation_in _ P) in H.
      apply (tally_In r v n Hnd) in H. destruct H as [Hin <-].
      rewrite Ht. simpl. apply Hk in Hin. destruct Hin as [[]|Hin]. auto.
    + intros [Hin ->]. apply (Permutation_in _ (Permutation_sym P)).
      apply (tally_In r v _ Hnd). split.
      * apply Hk. now right.
      * rewrite Ht. reflexivity.
Qed.

(** X10: when the breakdown shows a table of counts, its rows are
    exactly the non-empty picks of the Alive players for the week,
    each once with the number of Alive players who made it, larger
    counts first; picks of players that are not Alive are not counted. *)
Theorem breakdown_counts_alive_picks
  (df : DataFrame) (week : string) (table : list (string * nat)) :
  breakdown df week = ([CountsTable table], true) ->
  NoDup (map fst table)
  /\ StronglySorted count_ge table
  /\ forall v n, In (v, n) table <->
                 v <> "" /\ In v (alive_picks df week)
                 /\ n = count_occ string_dec (alive_picks df week) v.
Proof.
  unfold breakdown.
  destruct (Py.member "Status" (columns df)); [|discriminate].
  destruct (negb _); [|discriminate].
  destruct (Py.member week (columns df)); [|discriminate].
  intros [= <-]. fold (alive_picks df week).
  destruct (value_counts_spec (alive_picks df week)) as (Hnd & Hs & Hc).
  set (keep := fun kv : string * nat => negb (fst kv =? "")).
  split; [|split].
  - clear -Hnd. induction (value_counts (alive_picks df week)) as [|kv l IH];
      simpl; [constructor|].
    inversion Hnd as [|? ? Hnot Hnd']; subst.
    destruct (keep kv); simpl; [|now apply IH].
    constructor; [|now apply IH].
    intros H. apply Hnot. apply in_map_iff in H. destruct H as (x & E & Hx).
    apply filter_In in Hx. apply in_map_iff. exists x. tauto.
  - clear -Hs. induction Hs as [|kv l Hs IH Hall]; simpl; [constructor|].
    destruct (keep kv); [|exact IH]. constructor; [exact IH|].
    rewrite Forall_forall in *. intros z Hz. apply filter_In in Hz.
    now apply Hall.
  - intros v n. rewrite filter_In, Hc. unfold keep. simpl.
    rewrite negb_true_iff, String.eqb_neq. tauto.
Qed.

Lemma breakdown_counts_alive_picks_witness :
  In ("Eagles", 1) [("Eagles", 1)] <->
  "Eagles" <> "" /\ In "Eagles" (alive_picks sample_sheet "Week 1")
  /\ 1 = count_occ string_dec (alive_picks sample_sheet "Week 1") "Eagles".
Proof.
  apply (proj2 (proj2 (breakdown_counts_alive_picks sample_sheet "Week 1"
                         [("Eagles", 1)] eq_refl)) "Eagles" 1).
Defined.

Lemma pick_cols_cases (df : DataFrame) :
  (pick_cols df = filter (fun c => Py.contains "Week" c || Py.contains "Round" c)
                         (columns df)
   /\ pick_cols df <> [])
  \/ (pick_cols df = ["Week 1"]
      /\ forall c, In c (columns df) ->
                   Py.contains "Week" c || Py.contains "Round" c = false).
Proof.
  unfold pick_cols.
  destruct (filter _ (columns df)) as [|c cs] eqn:E.
  - right. split; [reflexivity|]. intros c Hc.
    destruct (Py.contains "Week" c || Py.contains "Round" c) eqn:Ec; [|reflexivity].
    assert (H : In c (filter (fun c => Py.contains "Week" c || Py.contains "Round" c)
                             (columns df))) by (apply filter_In; auto).
    rewrite E in H. destruct H.
  - left. split; [reflexivity | discriminate].
Qed.

(** X11: for a week of the week select box, the revealed board stops
    with a KeyError exactly when the sheet has a Status column and an
    Alive row but no column whose name contains Week or Round (the
    selected week is then the default Week 1, which is no column); the
    board then ends after the breakdown header. *)
Theorem breakdown_key_error (df : DataFrame) (week : string) (gs : list GameRecord) :
  In week (pick_cols df) ->
  (breakdown df week = ([KeyError week], false) <->
   In "Status" (columns df)
   /\ (exists r, In r (rows df) /\ cell r "Status" = "Alive")
   /\ (forall c, In c (columns df) ->
                 Py.contains "Week" c || Py.contains "Round" c = false))
  /\ (breakdown df week = ([KeyError week], false) ->
      week = "Week 1"
      /\ picks_board true df week gs
         = Some [Subheader ("📊 Breakdown: " ++ week); KeyError week]).
Proof.
  intros Hw.
  assert (Halive : forall l : list Row,
             (exists r, In r l /\ cell r "Status" = "Alive")
             <-> filter (fun r => cell r "Status" =? "Alive") l <> []).
  { intros l. split.
    - intros (r & Hr & Ha) E.
      assert (H : In r (filter (fun r => cell r "Status" =? "Alive") l))
        by (apply filter_In; split; [exact Hr | now apply String.eqb_eq]).
      rewrite E in H. destruct H.
    - destruct (filter _ l) as [|r rest] eqn:E; [congruence|]. intros _.
      assert (H : In r (filter (fun r => cell r "Status" =? "Alive") l))
        by (rewrite E; now left).
      apply filter_In in H. destruct H as [Hr Ha]. apply String.eqb_eq in Ha.
      eauto. }
  assert (Hcore :
    breakdown df week = ([KeyError week], false) <->
    In "Status" (columns df)
    /\ (exists r, In r (rows df) /\ cell r "Status" = "Alive")
    /\ ~ In week (columns df)).
  { unfold breakdown. rewrite Halive, <- !member_In.
    destruct (Py.member "Status" (columns df)) eqn:Es.
    - unfold df_empty. simpl.
      destruct (columns df) as [|c0 cs] eqn:Ec; [discriminate Es|].
      rewrite <- Ec.
      destruct (filter _ (rows df)) as [|r rest]; simpl.
      + split; [discriminate | intros (_ & H & _); congruence].
      + destruct (Py.member week (columns df)).
        * split; [discriminate | intros (_ & _ & H); congruence].
        * split; [intros _; repeat split; congruence | reflexivity].
    - split; [discriminate | intros (H & _); discriminate]. }
  destruct (pick_cols_cases df) as [[E _]|[E Hnone]]; rewrite E in Hw.
  - apply filter_In in Hw. destruct Hw as [Hcol Hlike].
    assert (Hno : breakdown df week <> ([KeyError week], false))
      by (rewrite Hcore; tauto).
    split; [|intros H; contradiction].
    split; [intros H; contradiction|].
    intros (_ & _ & H). rewrite (H week Hcol) in Hlike. discriminate.
  - destruct Hw as [<-|[]].
    assert (Hnot : ~ In "Week 1" (columns df)).
    { intros H. specialize (Hnone _ H). discriminate Hnone. }
    split.
    + rewrite Hcore. tauto.
    + intros H. split; [reflexivity|]. unfold picks_board. now rewrite H.
Qed.

Lemma breakdown_key_error_witness :
  breakdown {| columns := ["Name"; "Status"];
               rows := [[("Name", "Ann"); ("Status", "Alive")]] |} "Week 1"
  = ([KeyError "Week 1"], false).
Proof.
  apply (proj1 (breakdown_key_error
                  {| columns := ["Name"; "Status"];
                     rows := [[("Name", "Ann"); ("Status", "Alive")]] |}
                  "Week 1" [] (or_introl eq_refl))).
  split; [right; left; reflexivity|]. split.
  - eexists. split; [left; reflexivity | reflexivity].
  - intros c [<-|[<-|[]]]; reflexivity.
Defined.

(** ** Cells and tabs *)

Lemma nth_set_nth_same {A : Type} (d d' : A) (n : nat) (v : A) (l : list A) :
  nth n (set_nth d n v l) d' = v.
Proof.
  revert l; induction n as [|n IH]; intros [|x l]; simpl; auto.
Qed.

Lemma nth_set_nth_other {A : Type} (d : A) (n m : nat) (v : A) (l : list A) :
  m <> n -> nth m (set_nth d n v l) d = nth m l d.
Proof.
  revert m l; induction n as [|n IH]; intros [|m] [|x l] H; simpl; auto;
    try congruence.
  - destruct m; reflexivity.
  - rewrite IH by congruence. destruct m; reflexivity.
Qed.

Lemma value_at_put_same (ws : Worksheet) (pos : nat * nat) (v : string) :
  value_at (put_cell ws pos v) pos = v.
Proof.
  unfold value_at, put_cell. now rewrite !nth_set_nth_same.
Qed.

Lemma value_at_put_other (ws : Worksheet) (pos pos' : nat * nat) (v : string) :
  pos' <> pos -> value_at (put_cell ws pos v) pos' = value_at ws pos'.
Proof.
  destruct pos as [r c], pos' as [r' c']. unfold value_at, put_cell. simpl.
  intros H. destruct (Nat.eq_dec r' r) as [->|Hr].
  - rewrite nth_set_nth_same. apply nth_set_nth_other. congruence.
  - now rewrite nth_set_nth_other.
Qed.

Lemma worksheet_update_same (sh : Spreadsheet) (title : string)
  (f : Worksheet -> Worksheet) (ws : Worksheet) :
  worksheet sh title = inr ws -> worksheet (update_tab sh title f) title = inr (f ws).
Proof.
  induction sh as [|[t w] sh IH]; simpl; [discriminate|].
  destruct (t =? title) eqn:E; simpl; rewrite E.
  - now intros [= ->].
  - exact IH.
Qed.

Lemma worksheet_update_other (sh : Spreadsheet) (title other : string)
  (f : Worksheet -> Worksheet) :
  other <> title -> worksheet (update_tab sh title f) other = worksheet sh other.
Proof.
  intros Hne. induction sh as [|[t w] sh IH]; simpl; [reflexivity|].
  destruct (t =? title) eqn:E; simpl.
  - apply String.eqb_eq in E. subst t.
    apply not_eq_sym in Hne. apply String.eqb_neq in Hne. now rewrite Hne.
  - destruct (t =? other); [reflexivity | exact IH].
Qed.

Lemma worksheet_added (sh : Spreadsheet) (title other : string) (ws : Worksheet) :
  worksheet (sh ++ [(title, ws)]) other
  = match worksheet sh other with
    | inr w => inr w
    | inl e => if title =? other then inr ws else inl e
    end.
Proof.
  induction sh as [|[t w] sh IH]; simpl.
  - destruct (title =? other); reflexivity.
  - destruct (t =? other); [reflexivity | exact IH].
Qed.

Lemma ensure_config_sheet_spec (sh : Spreadsheet) :
  worksheet (snd (ensure_config_sheet sh)) "Config" = inr (fst (ensure_config_sheet sh))
  /\ forall other, other <> "Config" ->
       worksheet (snd (ensure_config_sheet sh)) other = worksheet sh other.
Proof.
  unfold ensure_config_sheet.
  destruct (worksheet sh "Config") as [e|ws] eqn:E; simpl.
  - split.
    + now rewrite worksheet_added, E.
    + intros other Hne. rewrite worksheet_added.
      destruct (worksheet sh other); [|reflexivity].
      apply not_eq_sym in Hne. apply String.eqb_neq in Hne. now rewrite Hne.
  - auto.
Qed.

(** Without a Config tab the picks are hidden, and the tab is added. *)
Lemma reveal_status_without_config (sh : Spreadsheet) :
  check_sheet_exists sh "Config" = false ->
  read_reveal_status sh
  = (false, sh ++ [("Config", [["Setting"; "Value"]; ["Picks_Revealed"; "False"]])]).
Proof.
  unfold check_sheet_exists, read_reveal_status, ensure_config_sheet.
  destruct (worksheet sh "Config"); [reflexivity | discriminate].
Qed.

(** X12: after [set_reveal_status(s)], on any spreadsheet, with or
    without a Config tab, [get_reveal_status()] answers whether [s] is
    the word true in any letter case, and changes nothing more; the
    tabs other than Config are as before. *)
Theorem reveal_status_round_trip (sh : Spreadsheet) (new_status : string) :
  read_reveal_status (set_reveal_status sh new_status)
  = (Py.lower new_status =? "true", set_reveal_status sh new_status)
  /\ forall other, other <> "Config" ->
       worksheet (set_reveal_status sh new_status) other = worksheet sh other.
Proof.
  destruct (ensure_config_sheet_spec sh) as [Hc Ho].
  unfold set_reveal_status.
  destruct (ensure_config_sheet sh) as [ws sh1]. simpl in Hc, Ho.
  set (sh2 := update_tab sh1 "Config" (fun w => put_cell w B2 new_status)).
  set (sh3 := update_tab sh2 "Config" (fun w => put_cell w A2 "Picks_Revealed")).
  assert (H2 : worksheet sh2 "Config" = inr (put_cell ws B2 new_status))
    by exact (worksheet_update_same sh1 "Config"
                (fun w => put_cell w B2 new_status) ws Hc).
  assert (H3 : worksheet sh3 "Config"
               = inr (put_cell (put_cell ws B2 new_status) A2 "Picks_Revealed"))
    by exact (worksheet_update_same sh2 "Config"
                (fun w => put_cell w A2 "Picks_Revealed") _ H2).
  split.
  - unfold read_reveal_status, ensure_config_sheet. rewrite H3.
    unfold acell. rewrite value_at_put_other by discriminate.
    rewrite value_at_put_same. f_equal.
    destruct new_status as [|c s]; reflexivity.
  - intros other Hne. unfold sh3, sh2.
    now rewrite !worksheet_update_other, Ho.
Qed.

(** ** Saving a pick *)

Lemma index_of_some (q : string) (cells : list string) (c : nat) :
  index_of q cells = Some c ->
  c < List.length cells /\ nth c cells "" = q
  /\ forall c', c' < c -> nth c' cells "" <> q.
Proof.
  revert c; induction cells as [|v cells IH]; simpl; intros c; [discriminate|].
  destruct (String.eqb_spec v q) as [->|Hne].
  - intros [= <-]. repeat split; [lia | intros c' Hc'; lia].
  - destruct (index_of q cells) as [c0|]; simpl; [|discriminate].
    intros [= <-]. destruct (IH c0 eq_refl) as (H1 & H2 & H3).
    repeat split; [lia | exact H2 |].
    intros [|c'] Hc'; [exact Hne | apply H3; lia].
Qed.

Lemma index_of_none (q : string) (cells : list string) :
  index_of q cells = None -> ~ In q cells.
Proof.
  induction cells as [|v cells IH]; simpl; [tauto|].
  destruct (String.eqb_spec v q) as [->|Hne]; [discriminate|].
  destruct (index_of q cells); simpl; [discriminate|].
  intros _ [H|H]; [contradiction | now apply IH].
Qed.

Lemma find_rows_some (q : string) (grid : list (list string)) (r c : nat) :
  find_rows q grid = Some (r, c) ->
  r < List.length grid
  /\ c < List.length (nth r grid [])
  /\ nth c (nth r grid []) "" = q
  /\ (forall r', r' < r -> ~ In q (nth r' grid []))
  /\ (forall c', c' < c -> nth c' (nth r grid []) "" <> q).
Proof.
  revert r; induction grid as [|cells grid IH]; simpl; intros r; [discriminate|].
  destruct (index_of q cells) as [c0|] eqn:E.
  - intros [= <- <-]. destruct (index_of_some _ _ _ E) as (H1 & H2 & H3).
    split; [lia|]. split; [exact H1|]. split; [exact H2|].
    split; [intros r' Hr'; lia | exact H3].
  - destruct (find_rows q grid) as [[r0 c0]|] eqn:Ef; simpl; [|discriminate].
    intros [= <- <-]. destruct (IH r0 eq_refl) as (H1 & H2 & H3 & H4 & H5).
    split; [lia|]. split; [exact H2|]. split; [exact H3|].
    split; [|exact H5].
    intros [|r'] Hr'; [now apply index_of_none | apply H4; lia].
Qed.


Lemma width_ge (ws : Worksheet) (cells : list string) :
  In cells ws -> List.length cells <= width ws.
Proof.
  induction ws as [|row ws IH]; simpl; [tauto|].
  intros [<-|H]; [lia | specialize (IH H); lia].
Qed.

Lemma filled_row (ws : Worksheet) (r : nat) :
  r < List.length ws ->
  nth r (fill_gaps ws) []
  = nth r ws [] ++ repeat "" (width ws - List.length (nth r ws []))
  /\ List.length (nth r (fill_gaps ws) []) = width ws.
Proof.
  intros Hr. unfold fill_gaps.
  set (f := fun cells : list string =>
              cells ++ repeat "" (width ws - List.length cells)).
  assert (E : nth r (map f ws) [] = f (nth r ws [])).
  { rewrite (nth_indep _ [] (f [])) by now rewrite length_map. apply map_nth. }
  rewrite E. unfold f. split; [reflexivity|].
  rewrite length_app, repeat_length.
  assert (H := width_ge ws (nth r ws []) (nth_In ws [] Hr)). lia.
Qed.

Lemma filled_value (ws : Worksheet) (r c : nat) :
  r < List.length ws -> nth c (nth r (fill_gaps ws) []) "" = value_at ws (r, c).
Proof.
  intros Hr. destruct (filled_row ws r Hr) as [E _]. rewrite E.
  unfold value_at. simpl.
  destruct (Nat.lt_ge_cases c (List.length (nth r ws []))) as [Hc|Hc].
  - now rewrite app_nth1.
  - rewrite app_nth2 by exact Hc. rewrite (nth_overflow (nth r ws [])) by exact Hc.
    apply nth_repeat.
Qed.

Lemma find_first_cell (ws : Worksheet) (q : string) (pos : nat * nat) :
  find ws q = Some pos -> first_cell ws q pos.
Proof.
  destruct pos as [r c]. unfold find. intros H.
  destruct (find_rows_some _ _ _ _ H) as (Hr & Hc & Hv & Hrows & Hcols).
  unfold fill_gaps in Hr. rewrite length_map in Hr.
  destruct (filled_row ws r Hr) as [_ Hlen]. rewrite Hlen in Hc.
  rewrite (filled_value ws r c Hr) in Hv.
  repeat split; auto.
  intros [r' c'] Hw Hlt. unfold row_major_lt in Hlt. simpl in Hw, Hlt.
  destruct Hlt as [Hlt|[-> Hlt]].
  - assert (Hr' : r' < List.length ws) by lia.
    rewrite <- (filled_value ws r' c' Hr'). intros E.
    apply (Hrows r' Hlt). rewrite <- E. apply nth_In.
    destruct (filled_row ws r' Hr') as [_ Hl]. now rewrite Hl.
  - rewrite <- (filled_value ws r c' Hr). now apply Hcols.
Qed.


(** X13: a pick that is saved is written into exactly one cell of the
    pool's tab: in the row of the first cell, row by row, that holds
    the player's name, and in the column of the first cell that holds
    the week's label; every other cell and every other tab is as
    before. *)
Theorem save_pick_writes_one_cell
  (sh sh' : Spreadsheet) (sheet_name player_name week_col team_pick : string) :
  save_pick_to_sheet sh sheet_name player_name week_col team_pick = (true, sh') ->
  exists ws name_pos week_pos,
    worksheet sh sheet_name = inr ws
    /\ first_cell ws player_name name_pos
    /\ first_cell ws week_col week_pos
    /\ worksheet sh' sheet_name
       = inr (put_cell ws (fst name_pos, snd week_pos) team_pick)
    /\ value_at (put_cell ws (fst name_pos, snd week_pos) team_pick)
                (fst name_pos, snd week_pos) = team_pick
    /\ (forall pos, pos <> (fst name_pos, snd week_pos) ->
          value_at (put_cell ws (fst name_pos, snd week_pos) team_pick) pos
          = value_at ws pos)
    /\ (forall other, other <> sheet_name -> worksheet sh' other = worksheet sh other).
Proof.
  unfold save_pick_to_sheet.
  destruct (worksheet sh sheet_name) as [e|ws] eqn:Hw; [discriminate|].
  destruct (find ws player_name) as [name_pos|] eqn:Hn; [|discriminate].
  destruct (find ws week_col) as [week_pos|] eqn:Hk; [|discriminate].
  intros [= <-]. exists ws, name_pos, week_pos.
  split; [reflexivity|].
  split; [now apply find_first_cell|].
  split; [now apply find_first_cell|].
  split; [exact (worksheet_update_same sh sheet_name
                   (fun w => put_cell w (fst name_pos, snd week_pos) team_pick)
                   ws Hw)|].
  split; [apply value_at_put_same|].
  split; [intros pos Hp; now apply value_at_put_other|].
  intros other Hne. now apply worksheet_update_other.
Qed.

Lemma save_pick_writes_one_cell_witness :
  exists ws name_pos week_pos,
    worksheet [("NFL", [["Name"; "Week 1"]; ["Ann"; ""]; ["Bob"]])] "NFL" = inr ws
    /\ first_cell ws "Bob" name_pos
    /\ first_cell ws "Week 1" week_pos
    /\ worksheet [("NFL", [["Name"; "Week 1"]; ["Ann"; ""]; ["Bob"; "Jets"]])] "NFL"
       = inr (put_cell ws (fst name_pos, snd week_pos) "Jets")
    /\ value_at (put_cell ws (fst name_pos, snd week_pos) "Jets")
                (fst name_pos, snd week_pos) = "Jets"
    /\ (forall pos, pos <> (fst name_pos, snd week_pos) ->
          value_at (put_cell ws (fst name_pos, snd week_pos) "Jets") pos
          = value_at ws pos)
    /\ (forall other, other <> "NFL" ->
          worksheet [("NFL", [["Name"; "Week 1"]; ["Ann"; ""]; ["Bob"; "Jets"]])] other
          = worksheet [("NFL", [["Name"; "Week 1"]; ["Ann"; ""]; ["Bob"]])] other).
Proof.
  apply (save_pick_writes_one_cell
           [("NFL", [["Name"; "Week 1"]; ["Ann"; ""]; ["Bob"]])]
           [("NFL", [["Name"; "Week 1"]; ["Ann"; ""]; ["Bob"; "Jets"]])]
           "NFL" "Bob" "Week 1" "Jets").
  reflexivity.
Defined.



(** ** Logging in *)

(** X15: a log-in succeeds only against the first row of the sheet
    whose e-mail equals the entered one up to letter case and
    surrounding white space, and only when the hash of the entered
    password is the text of that row's Security_Hash cell; the session
    then carries that row's name and the e-mail as entered. *)
Theorem log_in_sound (df : DataFrame) (email_input password_input user email : string) :
  log_in df email_input password_input = LoggedIn user email ->
  email = email_input
  /\ exists before user_row after,
       rows df = before ++ user_row :: after
       /\ (forall r, In r before ->
             clean_email (cell r "Email") <> clean_email email_input)
       /\ clean_email (cell user_row "Email") = clean_email email_input
       /\ make_hashes password_input = cell user_row "Security_Hash"
       /\ user = cell user_row "Name".
Proof.
  unfold log_in, clean_email.
  destruct (negb (df_empty df) && Py.member "Email" (columns df)); [|discriminate].
  destruct (Py.member _ (map _ (rows df))); [|discriminate].
  destruct (filter _ (rows df)) as [|user_row rest] eqn:Ef; [discriminate|].
  destruct (Py.member "Security_Hash" (columns df)); [|discriminate].
  destruct (check_hashes password_input (cell user_row "Security_Hash")) eqn:Eh;
    [|discriminate].
  destruct (Py.member "Name" (columns df)); [|discriminate].
  intros [= <- <-]. split; [reflexivity|].
  destruct (filter_head_split _ _ _ _ Ef) as (before & after & El & Hb & Hx).
  exists before, user_row, after. split; [exact El|]. split.
  - intros r Hr. apply String.eqb_neq. now apply Hb.
  - split; [now apply String.eqb_eq|]. split; [now apply check_hashes_iff | reflexivity].
Qed.

Lemma log_in_sound_witness :
  "ANN@example.org " = "ANN@example.org "
  /\ exists before user_row after,
       [[("Name", "Ann"); ("Email", "ann@example.org");
         ("Security_Hash",
          "ba7816bf8f01cfea414140de5dae2223b00361a396177a9cb410ff61f20015ad")]]
       = before ++ user_row :: after
       /\ (forall r, In r before ->
             clean_email (cell r "Email") <> clean_email "ANN@example.org ")
       /\ clean_email (cell user_row "Email") = clean_email "ANN@example.org "
       /\ make_hashes "abc" = cell user_row "Security_Hash"
       /\ "Ann" = cell user_row "Name".
Proof.
  apply (log_in_sound
           {| columns := ["Name"; "Email"; "Security_Hash"];
              rows := [[("Name", "Ann"); ("Email", "ann@example.org");
                        ("Security_Hash",
                         "ba7816bf8f01cfea414140de5dae2223b00361a396177a9cb410ff61f20015ad")]] |}
           "ANN@example.org " "abc" "Ann" "ANN@example.org ").
  vm_compute. reflexivity.
Defined.

Lemma all_some_id {A : Type} (f : A -> option A) (l : list A) :
  (forall x, In x l -> f x = Some x) -> all_some (map f l) = Some l.
Proof.
  induction l as [|x l IH]; simpl; intros H; [reflexivity|].
  rewrite (H x (or_introl eq_refl)). simpl.
  rewrite IH by (intros y Hy; apply H; now right). reflexivity.
Qed.

Lemma as_record_kept (header cells : list string) :
  Forall kept_as_text cells ->
  forall kv, In kv (as_record header cells) -> kept_as_text (snd kv).
Proof.
  revert cells; induction header as [|h header IH]; simpl; intros cells Hc kv;
    [intros []|].
  destruct cells as [|c cells].
  - intros [<-|H]; [reflexivity | exact (IH [] (Forall_nil _) kv H)].
  - inversion Hc; subst. intros [<-|H]; [assumption | now apply (IH cells)].
Qed.

(** A sheet whose cells below the header the reader leaves as text is
    loaded as the frame of its records. *)
Lemma numericise_frame_kept (header : list string) (body : list (list string)) :
  Forall (Forall kept_as_text) body ->
  numericise_frame {| columns := header; rows := map (as_record header) body |}
  = Some {| columns := header; rows := map (as_record header) body |}.
Proof.
  intros Hb. unfold numericise_frame. simpl.
  rewrite all_some_id; [reflexivity|].
  intros r Hr. apply in_map_iff in Hr. destruct Hr as (cells & <- & Hc).
  rewrite Forall_forall in Hb. unfold numericise_row.
  assert (E : map (fun kv : string * string =>
                     v <- numericise (snd kv) ;; Some (fst kv, v))
                  (as_record header cells)
              = map Some (as_record header cells)).
  { apply map_ext_in. intros [k v] Hkv.
    assert (Hk := as_record_kept header cells (Hb cells Hc) (k, v) Hkv).
    simpl in *. unfold kept_as_text in Hk. now rewrite Hk. }
  rewrite E. clear.
  induction (as_record header cells) as [|kv l IH]; simpl; [reflexivity|].
  now rewrite IH.
Qed.

Lemma get_all_records_records (header : list string) (body : list (list string)) :
  distinct header = true -> body <> [] ->
  get_all_records (header :: body)
  = inr {| columns := header; rows := map (as_record header) body |}.
Proof.
  intros Hd Hb. unfold get_all_records. rewrite Hd.
  destruct body; [contradiction | reflexivity].
Qed.

(** X16: on a tab whose header starts with Name, Email, Security_Hash
    and whose cells the reader leaves as text, a player who has just
    registered can log in: with the registered e-mail and password the
    log-in succeeds under the registered name. *)
Theorem register_then_log_in
  (sh sh' : Spreadsheet) (sheet_name name email password msg : string)
  (more : list string) (body : list (list string)) :
  worksheet sh sheet_name
  = inr (("Name" :: "Email" :: "Security_Hash" :: more) :: body) ->
  distinct ("Name" :: "Email" :: "Security_Hash" :: more) = true ->
  Forall (Forall kept_as_text) body ->
  kept_as_text name -> kept_as_text email -> kept_as_text (make_hashes password) ->
  register_user sh sheet_name name email password = ((true, msg), sh') ->
  exists df,
    load_data sh' sheet_name = Some df
    /\ log_in df email password = LoggedIn name email.
Proof.
  set (header := "Name" :: "Email" :: "Security_Hash" :: more).
  intros Hw Hd Hbody Hname Hemail Hhash Hreg.
  set (new := [name; email; make_hashes password; "Alive"]).
  assert (Hsh' : sh' = append_row sh sheet_name new /\
                 forall r, In r (map (as_record header) body) ->
                   clean_email (cell r "Email") <> clean_email email).
  { unfold register_user in Hreg. rewrite Hw in Hreg.
    unfold get_all_records in Hreg. fold header in Hreg. rewrite Hd in Hreg.
    destruct body as [|b0 body0].
    - simpl in Hreg. injection Hreg as _ <-. split; [reflexivity | intros r []].
    - cbn [df_empty columns rows] in Hreg.
      change (match header with [] => true | _ :: _ => _ end) with
        (match map (as_record header) (b0 :: body0) with
         | [] => true | _ :: _ => false end) in Hreg.
      assert (Hm : Py.member "Email" header = true) by reflexivity.
      rewrite Hm in Hreg. cbn [negb andb] in Hreg.
      destruct (Py.member (Py.strip (Py.lower email)) _) eqn:Em; [discriminate|].
      injection Hreg as _ <-. split; [reflexivity|].
      intros r Hr E. apply member_false in Em. apply Em.
      apply in_map_iff. exists r. split; [exact E | exact Hr]. }
  destruct Hsh' as [-> Hfresh].
  exists {| columns := header; rows := map (as_record header) (body ++ [new]) |}.
  assert (Hw' := worksheet_append_same sh sheet_name _ new Hw).
  split.
  - unfold load_data. rewrite Hw'.
    change ((header :: body) ++ [new]) with (header :: (body ++ [new])).
    rewrite (get_all_records_records header (body ++ [new]) Hd)
      by (destruct body; discriminate).
    apply numericise_frame_kept.
    apply Forall_app. split; [exact Hbody|].
    repeat constructor; assumption.
  - unfold log_in. cbn [columns rows].
    assert (Hne : df_empty {| columns := header;
                              rows := map (as_record header) (body ++ [new]) |}
                  = false).
    { unfold df_empty. cbn [columns rows].
      destruct (map (as_record header) (body ++ [new])) as [|r0 rs] eqn:E.
      - apply (f_equal (@List.length _)) in E.
        rewrite length_map, length_app in E. simpl in E. lia.
      - reflexivity. }
    rewrite Hne. change (Py.member "Email" header) with true.
    cbn [negb andb].
    assert (Hcell : cell (as_record header new) "Email" = email) by reflexivity.
    assert (Hin : Py.member (Py.strip (Py.lower email))
                    (map (fun r => Py.strip (Py.lower (cell r "Email")))
                         (map (as_record header) (body ++ [new]))) = true).
    { apply member_In. apply in_map_iff. exists (as_record header new).
      split; [now rewrite Hcell|]. apply in_map. apply in_or_app. right. now left. }
    rewrite Hin. rewrite map_app, filter_app.
    rewrite (filter_none _ (map (as_record header) body)).
    + cbn [map filter app]. rewrite Hcell, String.eqb_refl.
      change (Py.member "Security_Hash" header) with true.
      change (Py.member "Name" header) with true.
      change (cell (as_record header new) "Security_Hash")
        with (make_hashes password).
      assert (Hc : check_hashes password (make_hashes password) = true)
        by now apply check_hashes_iff.
      rewrite Hc. reflexivity.
    + intros r Hr. apply String.eqb_neq. now apply Hfresh.
Qed.

Lemma register_then_log_in_witness :
  exists df,
    load_data
      (snd (register_user [("NFL", [nfl_header])] "NFL" "Ann" "ann@example.org" "abc"))
      "NFL" = Some df
    /\ log_in df "ann@example.org" "abc" = LoggedIn "Ann" "ann@example.org".
Proof.
  apply (register_then_log_in
           [("NFL", [nfl_header])]
           (snd (register_user [("NFL", [nfl_header])] "NFL" "Ann" "ann@example.org" "abc"))
           "NFL" "Ann" "ann@example.org" "abc" "Success"
           (tl (tl (tl nfl_header))) []).
  - reflexivity.
  - reflexivity.
  - constructor.
  - reflexivity.
  - reflexivity.
  - vm_compute. reflexivity.
  - vm_compute. reflexivity.
Defined.




(** ** The list of active players' addresses *)

Lemma In_unique (x : string) (l : list string) : In x (unique l) <-> In x l.
Proof.
  induction l as [|y l IH]; simpl; [reflexivity|].
  rewrite filter_In, IH, negb_true_iff, String.eqb_neq.
  destruct (string_dec y x) as [->|Hne]; [tauto|].
  split; [tauto|]. intros [H|H]; [contradiction|]. right. split; [exact H | congruence].
Qed.

Lemma NoDup_unique (l : list string) : NoDup (unique l).
Proof.
  induction l as [|y l IH]; simpl; constructor.
  - rewrite filter_In, String.eqb_refl. intros [_ H]. discriminate.
  - now apply NoDup_filter.
Qed.

(** X18: the list of the Google Group helper names no address twice,
    and an address is on it exactly when it contains an at sign and is
    the Email cell of some row whose Status is Alive. *)
Theorem active_emails_spec (df : DataFrame) (emails : list string) :
  google_group_helper df = ActiveEmails emails ->
  NoDup emails
  /\ forall e, In e emails <->
       e <> "" /\ Spec.substring "@" e
       /\ exists r, In r (rows df) /\ cell r "Status" = "Alive" /\ cell r "Email" = e.
Proof.
  unfold google_group_helper.
  destruct (Py.member "Status" (columns df)); [|discriminate].
  destruct (Py.member "Email" (columns df)); [|discriminate].
  intros [= <-]. split.
  - apply NoDup_filter, NoDup_unique.
  - intros e. rewrite filter_In, In_unique, in_map_iff, andb_true_iff,
      negb_true_iff, String.eqb_neq, contains_substring.
    split.
    + intros [(r & <- & Hr) [H1 H2]]. apply filter_In in Hr.
      destruct Hr as [Hr Ha]. apply String.eqb_eq in Ha.
      repeat split; auto. exists r. auto.
    + intros (H1 & H2 & r & Hr & Ha & <-). split; [|auto].
      exists r. split; [reflexivity|]. apply filter_In.
      split; [exact Hr | now apply String.eqb_eq].
Qed.

Lemma active_emails_spec_witness :
  NoDup ["ann@example.org"; "bob@example.org"].
Proof.
  apply (proj1 (active_emails_spec sample_sheet
                  ["ann@example.org"; "bob@example.org"] eq_refl)).
Defined.

(** ** Registration keeps what is there *)

Lemma register_user_appends_rows
  (sh sh' : Spreadsheet) (sheet_name name email password msg : string) :
  register_user sh sheet_name name email password = ((true, msg), sh') ->
  sh' = append_row sh sheet_name [name; email; make_hashes password; "Alive"]
  /\ forall other, other <> sheet_name -> worksheet sh' other = worksheet sh other.
Proof.
  unfold register_user.
  destruct (worksheet sh sheet_name) as [e|ws]; [discriminate|].
  destruct (get_all_records ws) as [e|existing]; [discriminate|].
  destruct (_ && _); [discriminate|].
  intros [= <- <-]. split; [reflexivity|].
  intros other Hne. now apply worksheet_append_other.
Qed.

(** X19: whatever its answer, [register_user] leaves every row that
    was on a tab where it was: each tab afterwards is the tab before
    followed by at most the one new row, and by nothing when the
    answer is False. *)
Theorem register_user_keeps_rows
  (sh sh' : Spreadsheet) (sheet_name name email password : string)
  (answer : bool * string) (title : string) (ws : Worksheet) :
  register_user sh sheet_name name email password = (answer, sh') ->
  worksheet sh title = inr ws ->
  exists added,
    worksheet sh' title = inr (ws ++ added)
    /\ (added = [] \/ added = [[name; email; make_hashes password; "Alive"]])
    /\ (fst answer = false -> added = []).
Proof.
  intros Hreg Hw. destruct answer as [[|] msg].
  - destruct (register_user_appends_rows sh sh' sheet_name name email password msg Hreg)
      as (Happ & Hother).
    destruct (string_dec title sheet_name) as [->|Hne].
    + exists [[name; email; make_hashes password; "Alive"]].
      split; [|split; [now right | discriminate]].
      rewrite Happ. now apply worksheet_append_same.
    + exists []. rewrite app_nil_r, (Hother title Hne).
      split; [exact Hw | split; [now left | reflexivity]].
  - rewrite (register_user_failure_keeps_sheet _ _ _ _ _ _ _ Hreg).
    exists []. rewrite app_nil_r. split; [exact Hw | split; [now left | reflexivity]].
Qed.

Lemma register_user_keeps_rows_witness :
  exists added,
    worksheet
      (snd (register_user [("NFL", [nfl_header])] "NFL" "Ann" "ann@example.org" "abc"))
      "NFL" = inr ([nfl_header] ++ added)
    /\ (added = [] \/ added = [["Ann"; "ann@example.org"; make_hashes "abc"; "Alive"]])
    /\ (fst (true, "Success") = false -> added = []).
Proof.
  apply (register_user_keeps_rows
           [("NFL", [nfl_header])]
           (snd (register_user [("NFL", [nfl_header])] "NFL" "Ann" "ann@example.org" "abc"))
           "NFL" "Ann" "ann@example.org" "abc" (true, "Success") "NFL" [nfl_header]).
  - vm_compute. reflexivity.
  - reflexivity.
Defined.

(** ** The week asked from the feed *)

Lemma uint_digits (d : Decimal.uint) :
  string_forall is_digit (NilEmpty.string_of_uint d) = true.
Proof. induction d; simpl; auto. Qed.

Lemma str_of_nat_digits (n : nat) :
  string_forall is_digit (Py.str_of_int (Z.of_nat n)) = true
  /\ Py.str_of_int (Z.of_nat n) <> "".
Proof.
  unfold Py.str_of_int.
  assert (H : exists u, Z.to_int (Z.of_nat n) = Decimal.Pos u).
  { destruct (Z.of_nat n) eqn:E; simpl; eauto. lia. }
  destruct H as [u ->]. simpl. unfold NilZero.string_of_uint.
  destruct u; try (split; [apply (uint_digits (_ u)) | discriminate]).
  split; [reflexivity | discriminate].
Qed.

Lemma take_digits_all (s : string) :
  string_forall is_digit s = true -> take_digits s = s.
Proof.
  induction s as [|c s IH]; simpl; [reflexivity|].
  destruct (is_digit c); simpl; [|discriminate]. intros H. now rewrite IH.
Qed.

Lemma first_digits_all (s : string) :
  string_forall is_digit s = true -> s <> "" -> first_digits s = Some s.
Proof.
  destruct s as [|c s]; [congruence|]. simpl.
  destruct (is_digit c); simpl; [|discriminate].
  intros H _. now rewrite take_digits_all.
Qed.

(** X20: for a column label Week n, as the admin page writes them,
    the week number read from the label is n, the NFL pool asks the
    feed for that week, and any other pool asks the plain address. *)
Theorem week_label_gives_week (n : nat) (base_url : string) :
  first_digits ("Week " ++ Py.str_of_int (Z.of_nat n))
  = Some (Py.str_of_int (Z.of_nat n))
  /\ target_url base_url "NFL Survivor"
       (first_digits ("Week " ++ Py.str_of_int (Z.of_nat n)))
     = (base_url ++ "?week=" ++ Py.str_of_int (Z.of_nat n) ++ "&seasontype=2")%string
  /\ forall pool_type week_num,
       pool_type <> "NFL Survivor" -> target_url base_url pool_type week_num = base_url.
Proof.
  destruct (str_of_nat_digits n) as [Hd Hne].
  assert (E : first_digits ("Week " ++ Py.str_of_int (Z.of_nat n))
              = Some (Py.str_of_int (Z.of_nat n)))
    by (simpl; now apply first_digits_all).
  split; [exact E|]. split.
  - rewrite E. unfold target_url. apply String.eqb_neq in Hne.
    rewrite Hne. reflexivity.
  - intros pool_type week_num Hp. unfold target_url.
    apply String.eqb_neq in Hp. rewrite Hp. now destruct week_num.
Qed.

(** ** More on the log-in, the slate and the picks *)

(** X21: the log-in never fails on an index, and it stops with a
    KeyError only for the column Security_Hash or Name, and only when
    the frame has no such column. *)
Theorem log_in_errors (df : DataFrame) (email_input password_input : string) :
  log_in df email_input password_input <> LoginIndexError
  /\ forall key,
       log_in df email_input password_input = LoginKeyError key ->
       (key = "Security_Hash" \/ key = "Name") /\ ~ In key (columns df).
Proof.
  unfold log_in.
  destruct (negb (df_empty df) && Py.member "Email" (columns df));
    [|split; [discriminate | intros key; discriminate]].
  destruct (Py.member _ (map _ (rows df))) eqn:Em;
    [|split; [discriminate | intros key; discriminate]].
  destruct (filter _ (rows df)) as [|user_row rest] eqn:Ef.
  - exfalso. apply member_In in Em. apply in_map_iff in Em.
    destruct Em as (r & Hr & Hin).
    assert (H : In r (filter (fun r => Py.strip (Py.lower (cell r "Email"))
                                       =? Py.strip (Py.lower email_input))
                             (rows df)))
      by (apply filter_In; split; [exact Hin | now apply String.eqb_eq]).
    rewrite Ef in H. destruct H.
  - destruct (Py.member "Security_Hash" (columns df)) eqn:Es.
    + destruct (check_hashes _ _);
        [|split; [discriminate | intros key; discriminate]].
      destruct (Py.member "Name" (columns df)) eqn:En;
        [split; [discriminate | intros key; discriminate]|].
      split; [discriminate|]. intros key [= <-].
      split; [now right | now apply member_false].
    + split; [discriminate|]. intros key [= <-].
      split; [now left | now apply member_false].
Qed.

(** X22: a record read from a feed event has the event's description
    as its status, is locked exactly when the event is in progress or
    final (state in or post), and as long as it is not locked its
    winner reads TBD. *)
Theorem record_lock_and_status (e : Event) (g : GameRecord) :
  event_record (Shaped e) = Some g ->
  Status g = description e
  /\ (Locked g = true <-> Spec.completionState (state e) <> Spec.scheduled)
  /\ (Locked g = false -> Winner g = "TBD").
Proof.
  intros Hr. destruct (event_record_inv _ _ Hr)
    as (e' & c0 & c1 & more & s0 & s1 & [= <-] & _ & _ & _ & ->).
  cbn [Status Locked Winner]. split; [reflexivity|].
  unfold Spec.completionState, Py.member. simpl existsb.
  rewrite (String.eqb_sym (state e) "in"), (String.eqb_sym (state e) "post").
  destruct ("in" =? state e); [split; [split; [discriminate | reflexivity] | discriminate]|].
  destruct ("post" =? state e); simpl.
  - split; [split; [discriminate | reflexivity] | discriminate].
  - split; [split; [discriminate | congruence] | reflexivity].
Qed.

Lemma record_lock_and_status_witness :
  Status eagles_giants_final = "Final"
  /\ (Locked eagles_giants_final = true
      <-> Spec.completionState "post" <> Spec.scheduled)
  /\ (Locked eagles_giants_final = false -> Winner eagles_giants_final = "TBD").
Proof.
  apply (record_lock_and_status (two_sided "Final" "post" "Eagles" "24" "Giants" "17")
           eagles_giants_final).
  reflexivity.
Defined.

(** X23: the pick already saved for the selected week does not block
    its team: a team that is in no other week's cell and plays first
    in a game that is not locked is offered again for that week. *)
Theorem selected_week_pick_can_be_repeated
  (user_row : Row) (cols : list string) (week : string)
  (gs : list GameRecord) (g : GameRecord) :
  In g gs -> Locked g = false ->
  (forall c, In c cols -> c <> week -> cell user_row c <> TeamA g) ->
  In (TeamA g) (eligible_teams (past_picks user_row cols week) gs).
Proof.
  intros Hg Hl Hother. apply In_eligible_teams. exists g.
  split; [exact Hg|]. split; [exact Hl|]. split; [|now left].
  intros Hin. apply In_past_picks in Hin.
  destruct Hin as (c & Hc & Hw & Hv & _). exact (Hother c Hc Hw Hv).
Qed.

Lemma selected_week_pick_can_be_repeated_witness :
  In "Eagles"
     (eligible_teams
        (past_picks [("Name", "Ann"); ("Week 1", "Jets"); ("Week 2", "Eagles")]
                    ["Week 1"; "Week 2"] "Week 2")
        [game "Eagles" "Giants" "TBD" "Scheduled" "0-0" false]).
Proof.
  apply (selected_week_pick_can_be_repeated
           [("Name", "Ann"); ("Week 1", "Jets"); ("Week 2", "Eagles")]
           ["Week 1"; "Week 2"] "Week 2"
           [game "Eagles" "Giants" "TBD" "Scheduled" "0-0" false]
           (game "Eagles" "Giants" "TBD" "Scheduled" "0-0" false)).
  - left. reflexivity.
  - reflexivity.
  - intros c [<-|[<-|[]]] H; [discriminate | congruence].
Defined.

(** X24: on the dummy slate the teams offered are exactly the teams of
    the pool's list that are no past picks. *)
Theorem dummy_slate_offers_roster (pool_type : string) (pp : list string) (t : string) :
  In t (eligible_teams pp (dummy_games pool_type)) <->
  In t (if pool_type =? "NFL Survivor" then nfl_teams else ncaa_teams)
  /\ ~ In t pp.
Proof.
  rewrite In_eligible_teams. unfold dummy_games.
  set (teams := if pool_type =? "NFL Survivor" then nfl_teams else ncaa_teams).
  split.
  - intros (g & Hg & _ & Hp & Hplay). apply in_map_iff in Hg.
    destruct Hg as (t0 & <- & Ht0). simpl in Hplay.
    destruct Hplay as [<-|[<- Hb]]; [auto | congruence].
  - intros [Ht Hp].
    exists {| TeamA := t; TeamB := "Bye"; Winner := "TBD"; Status := "Scheduled";
              Score := "0-0"; Locked := false |}.
    split; [apply in_map_iff; exists t; auto|]. simpl. auto.
Qed.

(** X25: a stored text that is not 64 lower-case hexadecimal digits
    verifies against no password; in particular a row with an empty
    Security_Hash cell cannot be logged into. *)
Theorem malformed_digest_never_verifies (password hashed_text : string) :
  String.length hashed_text <> 64 \/ string_forall is_lower_hex hashed_text = false ->
  check_hashes password hashed_text = false.
Proof.
  intros H. destruct (check_hashes password hashed_text) eqn:E; [|reflexivity].
  apply check_hashes_iff in E. subst hashed_text.
  destruct (make_hashes_digest_shape password) as [Hl Hh].
  destruct H as [H|H]; [contradiction | congruence].
Qed.

Lemma malformed_digest_never_verifies_witness :
  check_hashes "abc" "" = false.
Proof.
  apply malformed_digest_never_verifies. left. discriminate.
Defined.
